(** * Dose calculator (src/main.py): a shallow embedding and its properties

    The core of the program is embedded function by function:
    [parse_frequency_to_doses_per_day], [mosteller_bsa_m2],
    [normalize_text], the [DoseRule], [Drug] and [Patient] classes,
    [calc_rule], the [REGISTRY] with [register], and [compute_text].

    - A Python [str] is a list of Unicode code points.
    - A Python [float] is an IEEE 754 binary64 value, computed with the
      Standard Library's [SpecFloat] operations at precision 53.
    - A Python exception is a [Raise] result; code that cannot raise still
      lives in the same monad when it calls code that can.
    - The Unicode character database behind [str.lower], [str.upper],
      [str.isdigit], [int] and [float] is a type class; the statements
      over all strings hold for every instance, and the concrete
      evaluations use an instance that is exact up to U+017F. *)

From Stdlib Require Import ZArith NArith QArith Qabs DecimalN List String Ascii Lia Bool.
From Stdlib Require Import Floats.SpecFloat.
From stdpp Require Import base option list gmap.

Set Default Proof Using "Type".

#[local] Close Scope Q_scope.

(* ===================================================================== *)
(** * Python strings *)
(* ===================================================================== *)

(** A code point; a [str] is a list of them. *)
Abbreviation cp := N.
Abbreviation str := (list N).

(** Source literals are UTF-8 text; [utf8] decodes a byte sequence into
    code points (U+FFFD for a truncated sequence). *)
Fixpoint utf8 (bs : list N) : str :=
  match bs with
  | [] => []
  | b0 :: r0 =>
    if (b0 <? 0x80)%N then b0 :: utf8 r0
    else match r0 with
    | [] => [0xFFFD%N]
    | b1 :: r1 =>
      if (b0 <? 0xE0)%N then ((b0 mod 32) * 64 + b1 mod 64)%N :: utf8 r1
      else match r1 with
      | [] => [0xFFFD%N]
      | b2 :: r2 =>
        if (b0 <? 0xF0)%N
        then ((b0 mod 16) * 4096 + (b1 mod 64) * 64 + b2 mod 64)%N :: utf8 r2
        else match r2 with
        | [] => [0xFFFD%N]
        | b3 :: r3 =>
          ((b0 mod 8) * 262144 + (b1 mod 64) * 4096
           + (b2 mod 64) * 64 + b3 mod 64)%N :: utf8 r3
        end
      end
    end
  end.

(** [u "..."] is the Python string written by the literal. *)
Definition u (s : string) : str :=
  utf8 (List.map N_of_ascii (list_ascii_of_string s)).
Arguments u s%_string.

(** [str.isspace] on one character: the whitespace code points of the
    Unicode database (bidirectional type WS, B or S, or category Zs). *)
Definition isspace (c : cp) : bool :=
  ((9 <=? c) && (c <=? 13) || (0x1C <=? c) && (c <=? 0x20)
   || (c =? 0x85) || (c =? 0xA0) || (c =? 0x1680)
   || (0x2000 <=? c) && (c <=? 0x200A)
   || (c =? 0x2028) || (c =? 0x2029) || (c =? 0x202F)
   || (c =? 0x205F) || (c =? 0x3000))%N.

Fixpoint lstrip (s : str) : str :=
  match s with
  | c :: s' => if isspace c then lstrip s' else s
  | [] => []
  end.

Definition rstrip (s : str) : str := rev (lstrip (rev s)).

(** [s.strip()] *)
Definition strip (s : str) : str := rstrip (lstrip s).

(** [s.replace(" ", "")] *)
Definition remove_spaces (s : str) : str :=
  List.filter (fun c => negb (c =? 0x20)%N) s.

Definition str_eqb (a b : str) : bool := bool_decide (a = b).

(** [s.startswith(p)] *)
Fixpoint startswith (p s : str) : bool :=
  match p, s with
  | [], _ => true
  | a :: p', b :: s' => (a =? b)%N && startswith p' s'
  | _ :: _, [] => false
  end.

(** [s.endswith(p)] *)
Definition endswith (p s : str) : bool := startswith (rev p) (rev s).

(** [s[1:-1]] *)
Definition slice_1_m1 (s : str) : str := removelast (tail s).

(** [sep.join(parts)] *)
Fixpoint join (sep : str) (parts : list str) : str :=
  match parts with
  | [] => []
  | [p] => p
  | p :: ps => p ++ sep ++ join sep ps
  end.

(** [s.split()]: the maximal runs of non-whitespace characters. *)
Fixpoint split_ws_aux (cur : str) (s : str) : list str :=
  match s with
  | [] => match cur with [] => [] | _ => [rev cur] end
  | c :: s' =>
    if isspace c
    then match cur with [] => split_ws_aux [] s' | _ => rev cur :: split_ws_aux [] s' end
    else split_ws_aux (c :: cur) s'
  end.

Definition split_ws (s : str) : list str := split_ws_aux [] s.

(** The decimal numeral of a natural number, as [str(n)] prints it. *)
Fixpoint uint_str (d : Decimal.uint) : str :=
  match d with
  | Decimal.Nil => []
  | Decimal.D0 d => 48%N :: uint_str d
  | Decimal.D1 d => 49%N :: uint_str d
  | Decimal.D2 d => 50%N :: uint_str d
  | Decimal.D3 d => 51%N :: uint_str d
  | Decimal.D4 d => 52%N :: uint_str d
  | Decimal.D5 d => 53%N :: uint_str d
  | Decimal.D6 d => 54%N :: uint_str d
  | Decimal.D7 d => 55%N :: uint_str d
  | Decimal.D8 d => 56%N :: uint_str d
  | Decimal.D9 d => 57%N :: uint_str d
  end.

Definition N_str (n : N) : str := uint_str (N.to_uint n).

(* ===================================================================== *)
(** * Exceptions *)
(* ===================================================================== *)

Inductive exn := ValueError | OverflowError | ZeroDivisionError.

(** The outcome of a call: a value, or a raised exception. *)
Inductive result (A : Type) :=
  | Ok (a : A)
  | Raise (e : exn).
Arguments Ok {A} a.
Arguments Raise {A} e.

#[export] Instance result_ret : MRet result := fun A a => Ok a.
#[export] Instance result_bind : MBind result := fun A B k m =>
  match m with
  | Ok a => k a
  | Raise e => Raise e
  end.

(** A loop whose body can raise: the results in order, or the first
    exception. *)
Fixpoint for_each {A B} (f : A -> result B) (l : list A) : result (list B) :=
  match l with
  | [] => Ok []
  | x :: l' => y ← f x; ys ← for_each f l'; mret (y :: ys)
  end.

(* ===================================================================== *)
(** * Python numbers *)
(* ===================================================================== *)

(** Python's [float]: IEEE 754 binary64. *)
Abbreviation float := spec_float.

Definition prec : Z := 53.
Definition emax : Z := 1024.

Definition fmul : float -> float -> float := SFmul prec emax.
Definition fdiv : float -> float -> float := SFdiv prec emax.
Definition fadd : float -> float -> float := SFadd prec emax.
Definition fsqrt : float -> float := SFsqrt prec emax.

(** The float nearest to an integer (ties to even; infinite beyond the
    largest finite float). *)
Definition Z2F (z : Z) : float := binary_normalize prec emax z 0 false.

Definition is_zero (x : float) : bool :=
  match x with S754_zero _ => true | _ => false end.

Definition is_infinite (x : float) : bool :=
  match x with S754_infinity _ => true | _ => false end.

(** [x < 0] as [math.sqrt] tests its argument: negative and not a zero. *)
Definition is_negative (x : float) : bool :=
  match x with
  | S754_finite true _ _ | S754_infinity true => true
  | _ => false
  end.

(** [bool(x)] for a float: every value except the two zeros. *)
Definition float_truthy (x : float) : bool := negb (is_zero x).

(** [a / b] on floats. *)
Definition float_truediv (a b : float) : result float :=
  if is_zero b then Raise ZeroDivisionError else Ok (fdiv a b).

(** [math.sqrt(x)] *)
Definition math_sqrt (x : float) : result float :=
  if is_negative x then Raise ValueError else Ok (fsqrt x).

(** A value of a field annotated [float]: the catalog passes [int]
    literals ([mg_per_kg_per_day=100]), the arithmetic promotes them. *)
Inductive num :=
  | PInt (z : Z)
  | PFloat (x : float).

(** The promotion of an operand to [float] in mixed arithmetic. *)
Definition as_float (n : num) : result float :=
  match n with
  | PFloat x => Ok x
  | PInt z => let x := Z2F z in
              if is_infinite x then Raise OverflowError else Ok x
  end.

(** [bool(n)] *)
Definition num_truthy (n : num) : bool :=
  match n with
  | PInt z => negb (z =? 0)%Z
  | PFloat x => float_truthy x
  end.

(** The nearest integer to [m * 2^e] for [m >= 0], ties to even. *)
Definition round_half_even (m e : Z) : Z :=
  if (0 <=? e)%Z then m * 2 ^ e
  else
    let d := (2 ^ (- e))%Z in
    let q := (m / d)%Z in
    match (2 * (m mod d) ?= d)%Z with
    | Lt => q
    | Gt => q + 1
    | Eq => if Z.even q then q else q + 1
    end.

Definition sign_str (s : bool) : str := if s then u "-" else [].

(** [format(x, ".0f")] for a float. *)
Definition format_f0 (x : float) : str :=
  match x with
  | S754_nan => u "nan"
  | S754_infinity s => sign_str s ++ u "inf"
  | S754_zero s => sign_str s ++ u "0"
  | S754_finite s m e => sign_str s ++ N_str (Z.to_N (round_half_even (Zpos m) e))
  end.

(* ===================================================================== *)
(** * The Unicode character database *)
(* ===================================================================== *)

(** What the interpreter's Unicode tables decide.  [decimal c] is
    [unicodedata.decimal(c)], the value [int] and [float] give a
    character; [isdigit] also holds of digits without one, such as the
    superscript two. *)
Class Unicode := {
  str_lower : str -> str;
  str_upper : str -> str;
  isdigit : cp -> bool;
  decimal : cp -> option N;
}.

(** The value of a string of decimal digits, [None] when a character
    has no decimal value. *)
Definition decimal_value `{Unicode} (s : str) : option N :=
  foldl (fun acc c => n ← acc; d ← decimal c; Some (10 * n + d)%N) (Some 0%N) s.

(** [s.isdigit()] *)
Definition str_isdigit `{Unicode} (s : str) : bool :=
  match s with [] => false | _ => forallb isdigit s end.

(* ===================================================================== *)
(** * The program *)
(* ===================================================================== *)

Section Program.
Context {U : Unicode}.

(** [sys.get_int_max_str_digits()]: the longest digit string [int] and
    [str] convert, 0 for no limit (and for interpreters without one).
    A limit, when set, is at least 640, and a string of at most 640
    digits is never refused. *)
Variable int_max_str_digits : N.

(** [repr] of a float, the shortest numeral that reads back. *)
Variable float_repr : float -> str.

Definition over_digit_limit (ndigits : nat) : bool :=
  ((640 <? N.of_nat ndigits) && (0 <? int_max_str_digits)
   && (int_max_str_digits <? N.of_nat ndigits))%N.

(** [float(s)] for a string [s] of digit characters. *)
Definition py_float (s : str) : result float :=
  match s, decimal_value s with
  | _ :: _, Some n => Ok (Z2F (Z.of_N n))
  | _, _ => Raise ValueError
  end.

(** [int(s)] for a string [s] of digit characters. *)
Definition py_int (s : str) : result Z :=
  match s, decimal_value s with
  | _ :: _, Some n =>
    if over_digit_limit (length s) then Raise ValueError else Ok (Z.of_N n)
  | _, _ => Raise ValueError
  end.

(** [str(n)] for an int. *)
Definition int_str (z : Z) : result str :=
  let digits := N_str (Z.abs_N z) in
  if over_digit_limit (length digits) then Raise ValueError
  else Ok (sign_str (z <? 0)%Z ++ digits).

(** [f"{n}"] *)
Definition num_str (n : num) : result str :=
  match n with
  | PInt z => int_str z
  | PFloat x => Ok (float_repr x)
  end.

(** ** HELPERS *)

(** The body of [parse_frequency_to_doses_per_day] after line 17, on
    the normalized string [f]. *)
Definition parse_normalized (f : str) : result (option float) :=
  if startswith (u "günde") f then
    let num := List.filter isdigit f in
    match num with
    | [] => mret None
    | _ => x ← py_float num; mret (Some x)
    end
  else if str_eqb f (u "od") || str_eqb f (u "q24h") then mret (Some (Z2F 1))
  else if startswith (u "q") f && endswith (u "h") f then
    let num := slice_1_m1 f in
    if str_isdigit num then
      hours ← py_int num;
      if (0 <? hours)%Z then
        h ← as_float (PInt hours);
        q ← float_truediv (Z2F 24) h;
        mret (Some q)
      else mret None
    else mret None
  else mret None.

Definition parse_frequency_to_doses_per_day (freq : str) : result (option float) :=
  let f := remove_spaces (str_lower (strip freq)) in
  parse_normalized f.

Definition mosteller_bsa_m2 (weight_kg height_cm : float) : result float :=
  q ← float_truediv (fmul height_cm weight_kg) (Z2F 3600);
  math_sqrt q.

(** [s.translate(tr)] with the table of [normalize_text]. *)
Definition translate_tr (c : cp) : cp :=
  if (c =? 0x131)%N then 0x69%N        (* ı -> i *)
  else if (c =? 0x15F)%N then 0x73%N   (* ş -> s *)
  else if (c =? 0x11F)%N then 0x67%N   (* ğ -> g *)
  else if (c =? 0xFC)%N then 0x75%N    (* ü -> u *)
  else if (c =? 0xF6)%N then 0x6F%N    (* ö -> o *)
  else if (c =? 0xE7)%N then 0x63%N    (* ç -> c *)
  else c.

Definition normalize_text (s : str) : str :=
  let s := str_lower (strip s) in
  let s := List.map translate_tr s in
  join (u " ") (split_ws s).

(** ** CORE MODELS *)

Record DoseRule := {
  indication : str;
  route : str;
  frequency : str;
  mg_per_kg_per_day : option num;
  mg_per_kg_per_dose : option num;
  mg_per_m2_per_day : option num;
  mg_per_m2_per_dose : option num;
  max_mg_per_day : option num;
  max_mg_per_dose : option num;
  notes : str;
}.

Definition doses_per_day (r : DoseRule) : result (option float) :=
  parse_frequency_to_doses_per_day (frequency r).

Definition needs_bsa (r : DoseRule) : bool :=
  bool_decide (mg_per_m2_per_day r ≠ None) || bool_decide (mg_per_m2_per_dose r ≠ None).

(** One [parts.append(f"{x} <unit>")] guarded by [x is not None]. *)
Definition describe_part (x : option num) (unit : str) : result (list str) :=
  match x with
  | Some n => s ← num_str n; mret [s ++ unit]
  | None => mret []
  end.

Definition describe (r : DoseRule) : result str :=
  p1 ← describe_part (mg_per_kg_per_day r) (u " mg/kg/gün");
  p2 ← describe_part (mg_per_kg_per_dose r) (u " mg/kg/doz");
  p3 ← describe_part (mg_per_m2_per_day r) (u " mg/m²/gün");
  mret (join (u " / ") (p1 ++ p2 ++ p3)
        ++ u ", " ++ route r ++ u ", " ++ frequency r).

Record Drug := { name : str; rules : list DoseRule }.

Definition new_Drug (name : str) : Drug := {| name := name; rules := [] |}.

Definition add_rule (d : Drug) (rule : DoseRule) : Drug :=
  {| name := name d; rules := rules d ++ [rule] |}.

(** [d.setdefault(k, []).append(r)] on an insertion-ordered dict. *)
Fixpoint setdefault_append (k : str) (r : DoseRule)
    (d : list (str * list DoseRule)) : list (str * list DoseRule) :=
  match d with
  | [] => [(k, [r])]
  | (k', rs) :: d' =>
    if decide (k' = k) then (k', rs ++ [r]) :: d'
    else (k', rs) :: setdefault_append k r d'
  end.

Definition rules_by_indication (d : Drug) : list (str * list DoseRule) :=
  foldl (fun acc r => setdefault_append (indication r) r acc) [] (rules d).

(** [compute_text] builds the only [Patient], from the [float] the
    caller read off the form. *)
Record Patient := { weight_kg : float; height_cm : option float }.

Definition bsa_weight_only_m2 (pt : Patient) : result float :=
  let w := weight_kg pt in
  float_truediv (fadd (fmul w (Z2F 4)) (Z2F 7)) (fadd w (Z2F 90)).

(** ** CALC *)

(** Line 105: [mg_day = r.mg_per_kg_per_day * pt.weight_kg]. *)
Definition mg_day_of (rate : num) (pt : Patient) : result float :=
  a ← as_float rate; mret (fmul a (weight_kg pt)).

(** Line 106: [mg_dose = mg_day / dpd if dpd else mg_day]. *)
Definition mg_dose_of (mg_day : float) (dpd : option float) : result float :=
  match dpd with
  | Some d => if float_truthy d then float_truediv mg_day d else mret mg_day
  | None => mret mg_day
  end.

Definition calc_rule (r : DoseRule) (pt : Patient) : result (list str) :=
  dpd ← doses_per_day r;
  match mg_per_kg_per_day r with
  | Some rate =>
    if num_truthy rate then
      mg_day ← mg_day_of rate pt;
      mg_dose ← mg_dose_of mg_day dpd;
      mret [u "→ " ++ format_f0 mg_dose ++ u " mg/doz";
            u "→ " ++ format_f0 mg_day ++ u " mg/gün"]
    else mret []
  | None => mret []
  end.

(** ** REGISTRY *)

Definition register (d : Drug) (registry : gmap str Drug) : gmap str Drug :=
  <[str_lower (name d) := d]> registry.

(** [REGISTRY.get(drug_query.lower())] *)
Definition lookup_drug (registry : gmap str Drug) (drug_query : str) : option Drug :=
  registry !! str_lower drug_query.

Definition rule_genel (rate : Z) : DoseRule :=
  {| indication := u "genel"; route := u "IV"; frequency := u "q6h";
     mg_per_kg_per_day := Some (PInt rate);
     mg_per_kg_per_dose := None; mg_per_m2_per_day := None;
     mg_per_m2_per_dose := None; max_mg_per_day := None;
     max_mg_per_dose := None; notes := [] |}.

Definition amp : Drug :=
  add_rule (add_rule (new_Drug (u "Ampisilin Sulbaktam")) (rule_genel 100))
           (rule_genel 200).

(** The registry once the module is loaded. *)
Definition REGISTRY : gmap str Drug := register amp ∅.

(** ** COMPUTE TEXT *)

(** Lines 142-144: the lines of one rule. *)
Definition rule_lines (pt : Patient) (r : DoseRule) : result (list str) :=
  d ← describe r;
  xs ← calc_rule r pt;
  mret ((u "  " ++ d) :: List.map (fun x => u "   " ++ x) xs).

(** Lines 140-144: the lines of one indication. *)
Definition indication_lines (pt : Patient) (g : str * list DoseRule)
    : result (list str) :=
  ls ← for_each (rule_lines pt) g.2;
  mret ((10%N :: str_upper g.1 ++ u ":") :: concat ls).

Definition NOT_FOUND : str := u "İlaç bulunamadı.".

Definition compute_text (registry : gmap str Drug) (weight : float)
    (drug_query : str) : result str :=
  let pt := {| weight_kg := weight; height_cm := None |} in
  match lookup_drug registry drug_query with
  | None => mret NOT_FOUND
  | Some drug =>
    let lines := [u "İLAÇ: " ++ name drug;
                  u "Kilo: " ++ float_repr weight ++ u " kg"] in
    body ← for_each (indication_lines pt) (rules_by_indication drug);
    mret (join [10%N] (lines ++ concat body))
  end.

End Program.

(* ===================================================================== *)
(** * A Unicode database for the Latin blocks *)
(* ===================================================================== *)

(** The case mappings and digit classes of Basic Latin, Latin-1
    Supplement and Latin Extended-A (U+0000 to U+017F), which hold every
    letter of the program's texts; a character beyond U+017F is left as
    it is and is no digit. *)

#[local] Open Scope N_scope.

Definition between (lo hi c : N) : bool := (lo <=? c) && (c <=? hi).

Definition latin_lower_cp (c : cp) : str :=
  if between 0x41 0x5A c then [c + 32]
  else if between 0xC0 0xDE c && negb (c =? 0xD7) then [c + 32]
  else if (c =? 0x130) then [0x69; 0x307]
  else if (c =? 0x178) then [0xFF]
  else if (between 0x100 0x12F c || between 0x132 0x137 c || between 0x14A 0x177 c)
          && N.even c then [c + 1]
  else if (between 0x139 0x148 c || between 0x179 0x17E c) && N.odd c then [c + 1]
  else [c].

Definition latin_upper_cp (c : cp) : str :=
  if between 0x61 0x7A c then [c - 32]
  else if (c =? 0xB5) then [0x39C]
  else if (c =? 0xDF) then [0x53; 0x53]
  else if between 0xE0 0xFE c && negb (c =? 0xF7) then [c - 32]
  else if (c =? 0xFF) then [0x178]
  else if (c =? 0x131) then [0x49]
  else if (c =? 0x149) then [0x2BC; 0x4E]
  else if (c =? 0x17F) then [0x53]
  else if (between 0x100 0x12F c || between 0x132 0x137 c || between 0x14A 0x177 c)
          && N.odd c then [c - 1]
  else if (between 0x139 0x148 c || between 0x179 0x17E c) && N.even c then [c - 1]
  else [c].

Definition latin_isdigit (c : cp) : bool :=
  between 0x30 0x39 c || (c =? 0xB2) || (c =? 0xB3) || (c =? 0xB9).

Definition latin_decimal (c : cp) : option N :=
  if between 0x30 0x39 c then Some (c - 0x30) else None.

Definition latin : Unicode := {|
  str_lower s := flat_map latin_lower_cp s;
  str_upper s := flat_map latin_upper_cp s;
  isdigit := latin_isdigit;
  decimal := latin_decimal;
|}.

#[local] Close Scope N_scope.

(* ===================================================================== *)
(** * Notions used by the statements *)
(* ===================================================================== *)

(** Spec section 3, "optional positive real", for a field annotated
    [float]: a positive finite float, or a positive int that converts to
    one. *)
Definition is_positive_real (n : num) : bool :=
  match n with
  | PInt z => (0 <? z)%Z && negb (is_infinite (Z2F z))
  | PFloat (S754_finite false _ _) => true
  | PFloat _ => false
  end.

(** A rule with none of the four dosing-basis fields set. *)
Definition no_dosing_basis (r : DoseRule) : Prop :=
  mg_per_kg_per_day r = None ∧ mg_per_kg_per_dose r = None
  ∧ mg_per_m2_per_day r = None ∧ mg_per_m2_per_dose r = None.

(** Two rules that agree on every field but the two safety ceilings. *)
Definition same_but_ceilings (r1 r2 : DoseRule) : Prop :=
  indication r1 = indication r2 ∧ route r1 = route r2
  ∧ frequency r1 = frequency r2
  ∧ mg_per_kg_per_day r1 = mg_per_kg_per_day r2
  ∧ mg_per_kg_per_dose r1 = mg_per_kg_per_dose r2
  ∧ mg_per_m2_per_day r1 = mg_per_m2_per_day r2
  ∧ mg_per_m2_per_dose r1 = mg_per_m2_per_dose r2
  ∧ notes r1 = notes r2.

(** A rule of the catalog's shape with a chosen frequency, basis and
    ceilings. *)
Definition rule_of (freq : str) (rate ceiling_day ceiling_dose : option num) : DoseRule :=
  {| indication := u "genel"; route := u "IV"; frequency := freq;
     mg_per_kg_per_day := rate;
     mg_per_kg_per_dose := None; mg_per_m2_per_day := None;
     mg_per_m2_per_dose := None; max_mg_per_day := ceiling_day;
     max_mg_per_dose := ceiling_dose; notes := [] |}.

Definition patient_of (w : float) : Patient :=
  {| weight_kg := w; height_cm := None |}.

(** ** The frequency parser as the spec describes it *)

(** The frequency "after lowercasing and whitespace removal" (line 17). *)
Definition normalized {U : Unicode} (freq : str) : str :=
  remove_spaces (str_lower (strip freq)).

(** The three forms as the spec words them, on a normalized string:
    the token "günde" followed by a number gives that number; "od" and
    "q24h" give 1.0; "q<N>h" with a positive integer N gives 24.0 / N;
    every other string is not parseable. *)
Definition claimed_doses_per_day {U : Unicode} (f : str) : option float :=
  if startswith (u "günde") f then
    let number := drop 5 f in
    if str_isdigit number
    then n ← decimal_value number; Some (Z2F (Z.of_N n))
    else None
  else if str_eqb f (u "od") || str_eqb f (u "q24h") then Some (Z2F 1)
  else if startswith (u "q") f && endswith (u "h") f then
    let number := slice_1_m1 f in
    if str_isdigit number
    then n ← decimal_value number;
         if (0 <? n)%N then Some (fdiv (Z2F 24) (Z2F (Z.of_N n))) else None
    else None
  else None.

(** ** Floats as numbers *)

Definition is_positive_finite (x : float) : bool :=
  match x with S754_finite false _ _ => true | _ => false end.

(** The rational a finite float stands for (0 for the others). *)
Definition F2Q (x : float) : Q :=
  match x with
  | S754_finite s m e =>
    ((if s then -1 else 1) * inject_Z (Zpos m) * 2 ^ e)%Q
  | _ => 0%Q
  end.

(** ** The registry as the spec describes it *)

(** The registry after the start-up calls [register(d)] for the drugs
    of [ds], in order. *)
Definition registry_of {U : Unicode} (ds : list Drug) : gmap str Drug :=
  foldl (fun registry d => register d registry) ∅ ds.

(** Two texts are equal up to letter case when [str.lower] sends them to
    the same string. *)
Definition same_up_to_case {U : Unicode} (a b : str) : Prop :=
  str_lower a = str_lower b.

(** ** The report as the spec describes it (section 4.5) *)

(** The distinct elements of a list in the order of their first
    occurrence. *)
Fixpoint first_seen (l : list str) : list str :=
  match l with
  | [] => []
  | x :: l' => x :: filter (fun y => y ≠ x) (first_seen l')
  end.

(** The rules of one indication, in registration order. *)
Definition rules_of_indication (ind : str) (rs : list DoseRule) : list DoseRule :=
  filter (fun r => indication r = ind) rs.

(** Step 3: the rules grouped by indication, first-seen order. *)
Definition grouped_by_indication (rs : list DoseRule) : list (str * list DoseRule) :=
  (fun ind => (ind, rules_of_indication ind rs)) <$> first_seen (indication <$> rs).


(** ** Texts that are their own normal form *)

(** A text of lower-case letters and digits without whitespace is its
    own normal form. *)
Definition plain (c : cp) : bool :=
  negb (isspace c) && bool_decide (latin_lower_cp c = [c]).

(* ===================================================================== *)
(** * Properties *)
(* ===================================================================== *)

Lemma bind_Ok {A B} (m : result A) (k : A -> result B) a :
  m = Ok a -> (m ≫= k) = k a.
Proof. intros ->. reflexivity. Qed.

Lemma bind_Raise {A B} (m : result A) (k : A -> result B) e :
  m = Raise e -> (m ≫= k) = Raise e.
Proof. intros ->. reflexivity. Qed.

(** A positive real of the data model passes the test
    [if r.mg_per_kg_per_day:] and converts to a float. *)
Lemma as_float_positive_real n :
  is_positive_real n = true -> exists a, as_float n = Ok a /\ num_truthy n = true.
Proof.
  destruct n as [z|x]; simpl.
  - intros [Hz Hf]%andb_prop. apply negb_true_iff in Hf. rewrite Hf.
    eexists; split; [reflexivity|].
    apply Z.ltb_lt in Hz. apply negb_true_iff, Z.eqb_neq. lia.
  - destruct x as [| | |[] m e]; try discriminate. intros _. eauto.
Qed.

(** ** Evaluations of the building blocks *)

Example format_f0_ties_to_even :
  format_f0 (fdiv (Z2F 1) (Z2F 2)) = u "0"
  /\ format_f0 (fdiv (Z2F 3) (Z2F 2)) = u "2"
  /\ format_f0 (fdiv (Z2F 5) (Z2F 2)) = u "2"
  /\ format_f0 (fdiv (Z2F (-2)) (Z2F 5)) = u "-0"
  /\ format_f0 (Z2F 1000) = u "1000".
Proof. repeat split; vm_compute; reflexivity. Qed.

Example as_float_overflow :
  as_float (PInt (2 ^ 1024 - 2 ^ 970 - 1)) = Ok (Z2F (2 ^ 1024 - 2 ^ 971))
  /\ as_float (PInt (2 ^ 1024 - 2 ^ 970)) = Raise OverflowError.
Proof. split; vm_compute; reflexivity. Qed.

Example normalize_text_example :
  normalize_text (U := latin) (u "  AMPİSİLİN   Sülbaktam ")
  = [97; 109; 112; 105; 775; 115; 105; 775; 108; 105; 775; 110; 32;
     115; 117; 108; 98; 97; 107; 116; 97; 109]%N
  /\ normalize_text (U := latin) (u "Ampisilin  SULBAKTAM") = u "ampisilin sulbaktam".
Proof. split; vm_compute; reflexivity. Qed.

(** ** The dose calculator *)

(** C1. A rule with mg_per_kg_per_day = 100 (the int of the catalog or
    the float) and frequency "q6h", applied to a patient of 10 kg:
    4.0 doses per day, a day total of 1000 mg, 250 mg per dose, and the
    two result lines show 250 and 1000. *)
Theorem calc_rule_100_q6h_10kg (L : N) (r : DoseRule) (pt : Patient) (rate : num) :
  mg_per_kg_per_day r = Some rate ->
  rate = PInt 100 \/ rate = PFloat (Z2F 100) ->
  frequency r = u "q6h" ->
  weight_kg pt = Z2F 10 ->
  doses_per_day (U := latin) L r = Ok (Some (Z2F 4))
  /\ mg_day_of rate pt = Ok (Z2F 1000)
  /\ mg_dose_of (Z2F 1000) (Some (Z2F 4)) = Ok (Z2F 250)
  /\ calc_rule (U := latin) L r pt
     = Ok [u "→ 250 mg/doz"; u "→ 1000 mg/gün"].
Proof.
  intros Hrate Hval Hfreq Hw.
  unfold calc_rule, doses_per_day, mg_day_of. rewrite Hrate, Hfreq, Hw.
  destruct Hval as [-> | ->]; vm_compute; auto.
Qed.

Lemma calc_rule_100_q6h_10kg_witness :
  doses_per_day (U := latin) 4300 (rule_genel 100) = Ok (Some (Z2F 4))
  /\ mg_day_of (PInt 100) (patient_of (Z2F 10)) = Ok (Z2F 1000)
  /\ mg_dose_of (Z2F 1000) (Some (Z2F 4)) = Ok (Z2F 250)
  /\ calc_rule (U := latin) 4300 (rule_genel 100) (patient_of (Z2F 10))
     = Ok [u "→ 250 mg/doz"; u "→ 1000 mg/gün"].
Proof.
  apply (calc_rule_100_q6h_10kg 4300 (rule_genel 100) (patient_of (Z2F 10)) (PInt 100));
    [reflexivity | left; reflexivity | reflexivity | reflexivity].
Defined.

Section Calculator.
Context {U : Unicode}.
Variable L : N.

(** What [calc_rule] returns once the parser has answered: nothing for
    a rule without a usable mg/kg/day, the two lines otherwise. *)
Lemma calc_rule_parsed (r : DoseRule) (pt : Patient) dpd :
  doses_per_day L r = Ok dpd ->
  calc_rule L r pt =
    match mg_per_kg_per_day r with
    | Some rate =>
      if num_truthy rate then
        mg_day ← mg_day_of rate pt;
        mg_dose ← mg_dose_of mg_day dpd;
        mret [u "→ " ++ format_f0 mg_dose ++ u " mg/doz";
              u "→ " ++ format_f0 mg_day ++ u " mg/gün"]
      else mret []
    | None => mret []
    end.
Proof. intros Hd. unfold calc_rule. rewrite Hd. reflexivity. Qed.

(** A rule without mg/kg/day yields no line when the parser answers. *)
Lemma calc_rule_no_rate (r : DoseRule) (pt : Patient) dpd :
  doses_per_day L r = Ok dpd ->
  mg_per_kg_per_day r = None ->
  calc_rule L r pt = Ok [].
Proof. intros Hd Hr. rewrite (calc_rule_parsed _ _ _ Hd), Hr. reflexivity. Qed.


(** C4. Two rules that differ only in max_mg_per_day and
    max_mg_per_dose give the same calculator outcome for every patient
    (the same lines, or the same exception), and the same descriptive
    line: the ceilings are never read. *)
Theorem calc_rule_ignores_ceilings (float_repr : float -> str)
    (r1 r2 : DoseRule) (pt : Patient) :
  same_but_ceilings r1 r2 ->
  calc_rule L r1 pt = calc_rule L r2 pt
  /\ describe L float_repr r1 = describe L float_repr r2
  /\ rule_lines L float_repr pt r1 = rule_lines L float_repr pt r2.
Proof.
  intros (Hi & Hro & Hf & H1 & H2 & H3 & H4 & Hn).
  assert (Hc : calc_rule L r1 pt = calc_rule L r2 pt)
    by (unfold calc_rule, doses_per_day; rewrite Hf, H1; reflexivity).
  assert (Hd : describe L float_repr r1 = describe L float_repr r2)
    by (unfold describe; rewrite Hro, Hf, H1, H2, H3; reflexivity).
  split; [exact Hc|]. split; [exact Hd|].
  unfold rule_lines. rewrite Hc, Hd. reflexivity.
Qed.

End Calculator.

Lemma calc_rule_ignores_ceilings_witness :
  calc_rule (U := latin) 4300 (rule_of (u "q6h") (Some (PInt 100)) None None)
      (patient_of (Z2F 10))
  = calc_rule (U := latin) 4300
      (rule_of (u "q6h") (Some (PInt 100)) (Some (PInt 500)) (Some (PInt 50)))
      (patient_of (Z2F 10))
  /\ describe 4300 (fun _ => []) (rule_of (u "q6h") (Some (PInt 100)) None None)
     = describe 4300 (fun _ => [])
         (rule_of (u "q6h") (Some (PInt 100)) (Some (PInt 500)) (Some (PInt 50)))
  /\ rule_lines (U := latin) 4300 (fun _ => []) (patient_of (Z2F 10))
       (rule_of (u "q6h") (Some (PInt 100)) None None)
     = rule_lines (U := latin) 4300 (fun _ => []) (patient_of (Z2F 10))
         (rule_of (u "q6h") (Some (PInt 100)) (Some (PInt 500)) (Some (PInt 50))).
Proof.
  apply (calc_rule_ignores_ceilings (U := latin) 4300 (fun _ => [])
           (rule_of (u "q6h") (Some (PInt 100)) None None)
           (rule_of (u "q6h") (Some (PInt 100)) (Some (PInt 500)) (Some (PInt 50)))
           (patient_of (Z2F 10))).
  repeat split; reflexivity.
Defined.

(** ** The registry *)

Section Registry.
Context {U : Unicode}.


Lemma lookup_register_other (registry : gmap str Drug) (d : Drug) (q : str) :
  ¬ same_up_to_case q (name d) ->
  lookup_drug (register d registry) q = lookup_drug registry q.
Proof.
  unfold same_up_to_case, lookup_drug, register. intros Hne.
  apply lookup_insert_ne. congruence.
Qed.

Lemma registry_of_snoc (ds : list Drug) (d : Drug) :
  registry_of (ds ++ [d]) = register d (registry_of ds).
Proof. unfold registry_of. rewrite foldl_snoc. reflexivity. Qed.

(** A query that matches no registered name up to case finds nothing. *)
Lemma lookup_registry_of_miss (ds : list Drug) (q : str) :
  (forall d, d ∈ ds -> ¬ same_up_to_case q (name d)) ->
  lookup_drug (registry_of ds) q = None.
Proof.
  induction ds as [|d ds IH] using rev_ind; intros Hall.
  - apply lookup_empty.
  - rewrite registry_of_snoc, lookup_register_other.
    + apply IH. intros d' Hd'. apply Hall, elem_of_app. auto.
    + apply Hall, elem_of_app. right. apply list_elem_of_singleton. reflexivity.
Qed.


End Registry.



(** ** The report *)

Section Report.
Context {U : Unicode}.
Variable L : N.
Variable float_repr : float -> str.

Lemma compute_text_miss (registry : gmap str Drug) (w : float) (q : str) :
  lookup_drug registry q = None ->
  compute_text L float_repr registry w q = Ok NOT_FOUND.
Proof. intros Hq. unfold compute_text. rewrite Hq. reflexivity. Qed.

(** C7. For every weight and every query that matches no registered
    drug (up to letter case), the report is the fixed not-found
    message, returned as a value and not raised. *)
Theorem compute_text_not_found (ds : list Drug) (w : float) (q : str) :
  (forall d, d ∈ ds -> ¬ same_up_to_case q (name d)) ->
  compute_text L float_repr (registry_of ds) w q = Ok (u "İlaç bulunamadı.").
Proof.
  intros Hq. apply compute_text_miss, lookup_registry_of_miss, Hq.
Qed.

End Report.

Lemma compute_text_not_found_witness :
  compute_text (U := latin) 4300 (fun _ => u "10.0")
    (registry_of (U := latin) [amp]) (Z2F 10) (u "nonexistent-drug")
  = Ok (u "İlaç bulunamadı.").
Proof.
  apply (compute_text_not_found (U := latin) 4300 (fun _ => u "10.0") [amp]
           (Z2F 10) (u "nonexistent-drug")).
  intros d Hd. apply list_elem_of_singleton in Hd. subst d.
  vm_compute. discriminate.
Defined.

(** ** Grouping by indication *)

Lemma elem_of_first_seen (l : list str) (x : str) : x ∈ first_seen l <-> x ∈ l.
Proof.
  induction l as [|a l IH]; simpl; [reflexivity|].
  rewrite !elem_of_cons, list_elem_of_filter, IH.
  destruct (decide (x = a)); tauto.
Qed.

Lemma NoDup_first_seen (l : list str) : NoDup (first_seen l).
Proof.
  induction l as [|a l IH]; simpl; [constructor|].
  constructor.
  - rewrite list_elem_of_filter. tauto.
  - apply NoDup_filter, IH.
Qed.

Lemma first_seen_snoc (l : list str) (x : str) :
  first_seen (l ++ [x]) = if decide (x ∈ l) then first_seen l else first_seen l ++ [x].
Proof.
  induction l as [|a l IH].
  - case_decide as Hx; [|reflexivity]. by apply not_elem_of_nil in Hx.
  - cbn [app first_seen]. rewrite IH.
    destruct (decide (x ∈ l)) as [Hin|Hnin].
    + rewrite decide_True by (apply elem_of_cons; auto). reflexivity.
    + rewrite filter_app. destruct (decide (x = a)) as [->|Hne].
      * rewrite decide_True by apply list_elem_of_here.
        rewrite filter_cons_False, filter_nil by tauto.
        rewrite app_nil_r. reflexivity.
      * rewrite decide_False by (rewrite elem_of_cons; tauto).
        rewrite filter_cons_True, filter_nil by exact Hne. reflexivity.
Qed.

Lemma rules_of_indication_snoc (i : str) (rs : list DoseRule) (r : DoseRule) :
  rules_of_indication i (rs ++ [r])
  = rules_of_indication i rs ++ (if decide (indication r = i) then [r] else []).
Proof.
  unfold rules_of_indication. rewrite filter_app.
  destruct (decide (indication r = i)).
  - rewrite filter_cons_True by assumption. reflexivity.
  - rewrite filter_cons_False by assumption. reflexivity.
Qed.

Lemma rules_of_indication_absent (i : str) (rs : list DoseRule) :
  i ∉ indication <$> rs -> rules_of_indication i rs = [].
Proof.
  intros Hi. unfold rules_of_indication.
  induction rs as [|r rs IH]; [reflexivity|].
  rewrite fmap_cons, not_elem_of_cons in Hi. destruct Hi as [Hne Hi].
  rewrite filter_cons_False by congruence. apply IH, Hi.
Qed.

Lemma setdefault_append_grouped (rs : list DoseRule) (r : DoseRule) (keys : list str) :
  NoDup keys ->
  setdefault_append (indication r) r
    ((fun i => (i, rules_of_indication i rs)) <$> keys)
  = ((fun i => (i, rules_of_indication i (rs ++ [r]))) <$> keys)
    ++ (if decide (indication r ∈ keys) then []
        else [(indication r, [r])]).
Proof.
  induction keys as [|a keys IH]; intros Hnd.
  - case_decide as Hx; [by apply not_elem_of_nil in Hx|reflexivity].
  - apply NoDup_cons in Hnd as [Ha Hnd].
    cbn [fmap list_fmap setdefault_append app].
    rewrite rules_of_indication_snoc.
    destruct (decide (a = indication r)) as [Heq|Hne].
    + rewrite (decide_True (P := indication r = a)) by congruence.
      rewrite (decide_True (P := indication r ∈ a :: keys))
        by (rewrite Heq; apply list_elem_of_here).
      rewrite app_nil_r. f_equal.
      apply list_fmap_ext. intros _ i Hi%list_elem_of_lookup_2.
      rewrite rules_of_indication_snoc.
      rewrite decide_False by (intros Hri; apply Ha; rewrite Heq, Hri; exact Hi).
      rewrite app_nil_r. reflexivity.
    + rewrite (decide_False (P := indication r = a)) by congruence.
      rewrite app_nil_r, IH by exact Hnd.
      destruct (decide (indication r ∈ keys)) as [Hin|Hnin].
      * rewrite decide_True by (apply elem_of_cons; auto). reflexivity.
      * rewrite decide_False by (rewrite elem_of_cons; intros [?|?]; congruence).
        reflexivity.
Qed.

Lemma grouped_by_indication_snoc (rs : list DoseRule) (r : DoseRule) :
  grouped_by_indication (rs ++ [r])
  = setdefault_append (indication r) r (grouped_by_indication rs).
Proof.
  unfold grouped_by_indication.
  rewrite setdefault_append_grouped by apply NoDup_first_seen.
  rewrite fmap_app. simpl. rewrite first_seen_snoc.
  destruct (decide (indication r ∈ indication <$> rs)) as [Hin|Hnin].
  - rewrite decide_True by (apply elem_of_first_seen, Hin).
    rewrite app_nil_r. reflexivity.
  - rewrite decide_False by (rewrite elem_of_first_seen; exact Hnin).
    rewrite fmap_app. simpl. f_equal. f_equal. f_equal.
    rewrite rules_of_indication_snoc, decide_True by reflexivity.
    rewrite rules_of_indication_absent by exact Hnin. reflexivity.
Qed.

Lemma rules_by_indication_grouped (d : Drug) :
  rules_by_indication d = grouped_by_indication (rules d).
Proof.
  unfold rules_by_indication.
  induction (rules d) as [|r rs IH] using rev_ind; [reflexivity|].
  rewrite foldl_snoc, IH, grouped_by_indication_snoc. reflexivity.
Qed.





(** ** Rounding to binary64 *)

Section Rounding.
#[local] Open Scope Z_scope.

Lemma fexp_eq (x : Z) : fexp prec emax x = Z.max (x - 53) (-1074).
Proof. reflexivity. Qed.

Lemma digits2_pos_bounds (p : positive) :
  2 ^ (Zpos (digits2_pos p) - 1) <= Zpos p < 2 ^ Zpos (digits2_pos p).
Proof.
  induction p as [p IH|p IH|]; cbn [digits2_pos].
  - rewrite Pos2Z.inj_succ.
    replace (Z.succ (Zpos (digits2_pos p)) - 1) with (Z.succ (Zpos (digits2_pos p) - 1)) by lia.
    rewrite !Z.pow_succ_r by lia. lia.
  - rewrite Pos2Z.inj_succ.
    replace (Z.succ (Zpos (digits2_pos p)) - 1) with (Z.succ (Zpos (digits2_pos p) - 1)) by lia.
    rewrite !Z.pow_succ_r by lia. lia.
  - cbn. lia.
Qed.

Lemma digits2_pos_mono (p q : positive) :
  (p <= q)%positive -> Zpos (digits2_pos p) <= Zpos (digits2_pos q).
Proof.
  intros Hpq.
  pose proof (digits2_pos_bounds p) as [Hp _].
  pose proof (digits2_pos_bounds q) as [_ Hq].
  assert (H : 2 ^ (Zpos (digits2_pos p) - 1) < 2 ^ Zpos (digits2_pos q)) by lia.
  apply Z.pow_lt_mono_r_iff in H; lia.
Qed.

Lemma digits2_pos_iter_xO (p d : positive) :
  Zpos (digits2_pos (Pos.iter xO p d)) = Zpos (digits2_pos p) + Zpos d.
Proof.
  induction d as [|d IH] using Pos.peano_ind.
  - cbn [Pos.iter digits2_pos]. lia.
  - rewrite Pos.iter_succ. cbn [digits2_pos]. lia.
Qed.

Lemma shr_1_m (r : shr_record) :
  0 <= shr_m r -> shr_m (shr_1 r) = shr_m r / 2.
Proof.
  destruct r as [m rb sb]. cbn [shr_m shr_1]. intros Hm.
  destruct m as [|[p|p|]|p]; cbn [shr_m]; try lia.
  - reflexivity.
  - rewrite Pos2Z.inj_xI. apply Z.div_unique with (r := 1); lia.
  - rewrite Pos2Z.inj_xO. apply Z.div_unique with (r := 0); lia.
  - reflexivity.
Qed.

Lemma iter_pos_shr_1_m (n : positive) (r : shr_record) :
  0 <= shr_m r -> shr_m (SpecFloat.iter_pos shr_1 n r) = shr_m r / 2 ^ Zpos n.
Proof.
  revert r. induction n as [n IH|n IH|]; intros r Hr; cbn [SpecFloat.iter_pos].
  - assert (H1 : 0 <= shr_m (shr_1 r)) by (rewrite shr_1_m by lia; apply Z.div_pos; lia).
    assert (H2 : 0 <= shr_m (SpecFloat.iter_pos shr_1 n (shr_1 r)))
      by (rewrite IH by lia; apply Z.div_pos; lia).
    rewrite IH, IH, shr_1_m by lia.
    rewrite !Z.div_div by lia. f_equal.
    rewrite Pos2Z.inj_xI.
    replace (2 * Z.pos n + 1) with (1 + Z.pos n + Z.pos n) by lia.
    rewrite !Z.pow_add_r by lia. change (2 ^ 1) with 2. ring.
  - assert (H2 : 0 <= shr_m (SpecFloat.iter_pos shr_1 n r))
      by (rewrite IH by lia; apply Z.div_pos; lia).
    rewrite IH, IH by lia. rewrite Z.div_div by lia. f_equal.
    rewrite <- Z.pow_add_r by lia. f_equal. lia.
  - rewrite shr_1_m by lia. reflexivity.
Qed.

(** Shifting to the target exponent keeps a positive mantissa positive
    as long as the value stays above the smallest exponent. *)
Lemma shr_fexp_positive (p : positive) (e : Z) (l : location) :
  -1074 < Zpos (digits2_pos p) + e ->
  1 <= shr_m (fst (shr_fexp prec emax (Zpos p) e l))
  /\ -1074 <= snd (shr_fexp prec emax (Zpos p) e l).
Proof.
  intros Hd. unfold shr_fexp, shr. cbn [Zdigits2]. rewrite fexp_eq.
  pose proof (digits2_pos_bounds p) as [Hlo _].
  assert (Hm : shr_m (shr_record_of_loc (Zpos p) l) = Zpos p)
    by (destruct l as [|[]]; reflexivity).
  destruct (Z.max (Zpos (digits2_pos p) + e - 53) (-1074) - e) as [|n|n] eqn:Hn;
    cbn [fst snd].
  - rewrite Hm. lia.
  - rewrite iter_pos_shr_1_m by (rewrite Hm; lia). rewrite Hm. split; [|lia].
    assert (Hle : 2 ^ Zpos n <= 2 ^ (Zpos (digits2_pos p) - 1))
      by (apply Z.pow_le_mono_r; lia).
    apply Z.div_le_lower_bound; lia.
  - rewrite Hm. lia.
Qed.

Lemma round_nearest_even_ge (m : Z) (l : location) :
  m <= round_nearest_even m l.
Proof. destruct l as [|[]]; cbn [round_nearest_even]; try destruct (Z.even m); lia. Qed.

(** Rounding a positive mantissa above the smallest exponent never
    gives a zero. *)
Lemma binary_round_aux_nonzero (s : bool) (p : positive) (e : Z) (l : location) :
  -1074 < Zpos (digits2_pos p) + e ->
  is_zero (binary_round_aux prec emax s (Zpos p) e l) = false.
Proof.
  intros Hd. unfold binary_round_aux.
  destruct (shr_fexp_positive p e l Hd) as [Hm He].
  destruct (shr_fexp prec emax (Zpos p) e l) as [mrs' e']. cbn [fst snd] in Hm, He.
  pose proof (round_nearest_even_ge (shr_m mrs') (loc_of_shr_record mrs')) as Hr.
  destruct (round_nearest_even (shr_m mrs') (loc_of_shr_record mrs')) as [|p1|p1];
    try lia.
  assert (Hd1 : -1074 < Zpos (digits2_pos p1) + e') by lia.
  destruct (shr_fexp_positive p1 e' loc_Exact Hd1) as [Hm1 _].
  destruct (shr_fexp prec emax (Zpos p1) e' loc_Exact) as [mrs'' e''].
  cbn [fst] in Hm1.
  destruct (shr_m mrs'') as [|p2|p2]; try lia.
  destruct (e'' <=? emax - prec); reflexivity.
Qed.

Lemma shl_align_digits (mx : positive) (ex ex' : Z) :
  Zpos (digits2_pos (fst (shl_align mx ex ex'))) + snd (shl_align mx ex ex')
  = Zpos (digits2_pos mx) + ex.
Proof.
  unfold shl_align. destruct (ex' - ex) as [|d|d] eqn:Hd; cbn [fst snd]; try reflexivity.
  rewrite digits2_pos_iter_xO. lia.
Qed.

Lemma shl_align_snd_le (mx : positive) (ex ex' : Z) :
  ex' <= ex -> snd (shl_align mx ex ex') = ex'.
Proof.
  intros Hle. unfold shl_align.
  destruct (ex' - ex) as [|d|d] eqn:Hd; cbn [snd]; lia.
Qed.

Lemma binary_round_nonzero (s : bool) (p : positive) (e : Z) :
  -1074 < Zpos (digits2_pos p) + e ->
  is_zero (binary_round prec emax s p e) = false.
Proof.
  intros Hd. unfold binary_round.
  pose proof (shl_align_digits p e (fexp prec emax (Zpos (digits2_pos p) + e))) as Hs.
  destruct (shl_align p e (fexp prec emax (Zpos (digits2_pos p) + e))) as [mz ez].
  cbn [fst snd] in Hs. apply binary_round_aux_nonzero. lia.
Qed.

(** The float of a positive integer is not a zero. *)
Lemma Z2F_positive_nonzero (z : Z) : 0 < z -> is_zero (Z2F z) = false.
Proof.
  destruct z as [|p|p]; try lia. intros _.
  unfold Z2F, binary_normalize. apply binary_round_nonzero. lia.
Qed.

(** The sum of two positive finite floats is not a zero when one of
    them lies above the smallest exponent. *)
Lemma fadd_positive_nonzero (mx my : positive) (ex ey : Z) :
  -1074 < Zpos (digits2_pos my) + ey ->
  is_zero (fadd (S754_finite false mx ex) (S754_finite false my ey)) = false.
Proof.
  intros Hy. unfold fadd, SFadd, cond_Zopp, binary_normalize.
  pose proof (shl_align_digits my ey (Z.min ex ey)) as Hd.
  rewrite (shl_align_snd_le my ey (Z.min ex ey)) in Hd by lia.
  set (a := fst (shl_align mx ex (Z.min ex ey))) in *.
  set (b := fst (shl_align my ey (Z.min ex ey))) in *.
  change (Zpos a + Zpos b) with (Zpos (a + b)).
  apply binary_round_nonzero.
  pose proof (digits2_pos_mono b (a + b)%positive ltac:(lia)). lia.
Qed.

(** Rounding with a positive sign gives no negative number; so do the
    product and the quotient of positive finite floats. *)
Lemma binary_round_aux_not_negative (m e : Z) (l : location) :
  is_negative (binary_round_aux prec emax false m e l) = false.
Proof.
  unfold binary_round_aux.
  destruct (shr_fexp prec emax m e l) as [mrs' e'].
  destruct (shr_fexp prec emax _ e' loc_Exact) as [mrs'' e''].
  destruct (shr_m mrs''); [reflexivity| |reflexivity].
  destruct (e'' <=? emax - prec); reflexivity.
Qed.

Lemma fmul_positive_not_negative (mx my : positive) (ex ey : Z) :
  is_negative (fmul (S754_finite false mx ex) (S754_finite false my ey)) = false.
Proof. apply binary_round_aux_not_negative. Qed.

Lemma fdiv_not_negative (x : float) (my : positive) (ey : Z) :
  is_negative x = false ->
  is_negative (fdiv x (S754_finite false my ey)) = false.
Proof.
  destruct x as [s|s| |s mx ex]; cbn [is_negative]; intros Hx.
  - destruct s; reflexivity.
  - destruct s; [discriminate|reflexivity].
  - reflexivity.
  - destruct s; [discriminate|]. unfold fdiv, SFdiv.
    destruct (SFdiv_core_binary prec emax (Zpos mx) ex (Zpos my) ey) as [[mz ez] lz].
    apply binary_round_aux_not_negative.
Qed.

End Rounding.

(** ** Strings and the frequency parser *)

Lemma startswith_app (p s : str) : startswith p (p ++ s) = true.
Proof.
  induction p as [|a p IH]; [destruct s; reflexivity|].
  cbn [app startswith]. rewrite N.eqb_refl. exact IH.
Qed.

Lemma startswith_inv (p s : str) :
  startswith p s = true -> exists r, s = p ++ r.
Proof.
  revert s. induction p as [|a p IH]; intros s Hs.
  - exists s. reflexivity.
  - destruct s as [|b s]; [discriminate|]. cbn [startswith] in Hs.
    apply andb_prop in Hs as [Hab Hs]. apply N.eqb_eq in Hab. subst b.
    destruct (IH s Hs) as [r ->]. exists r. reflexivity.
Qed.

Lemma endswith_app (p s : str) : endswith p (s ++ p) = true.
Proof. unfold endswith. rewrite rev_app_distr. apply startswith_app. Qed.

Lemma endswith_inv (p s : str) :
  endswith p s = true -> exists r, s = r ++ p.
Proof.
  unfold endswith. intros [r Hr]%startswith_inv. exists (rev r).
  rewrite <- (rev_involutive s), Hr, rev_app_distr, rev_involutive. reflexivity.
Qed.

Lemma slice_1_m1_inner (a b : cp) (s : str) : slice_1_m1 (a :: s ++ [b]) = s.
Proof. unfold slice_1_m1. cbn [tail]. apply removelast_last. Qed.

(** A string that starts with one character and ends with another one
    has an inner part between them. *)
Lemma starts_ends_inv (a b : cp) (s : str) :
  a ≠ b ->
  startswith [a] s = true -> endswith [b] s = true ->
  exists ds, s = a :: ds ++ [b].
Proof.
  intros Hab [r ->]%startswith_inv [pre Hpre]%endswith_inv.
  cbn [app] in Hpre. destruct pre as [|c pre]; cbn [app] in Hpre.
  - destruct r; [congruence|discriminate].
  - injection Hpre as <- ->. exists pre. reflexivity.
Qed.

Lemma str_eqb_true (a b : str) : str_eqb a b = true <-> a = b.
Proof. unfold str_eqb. apply bool_decide_eq_true. Qed.

Lemma str_eqb_false (a b : str) : str_eqb a b = false <-> a ≠ b.
Proof. unfold str_eqb. apply bool_decide_eq_false. Qed.

Section Parser.
Context {U : Unicode}.
Variable L : N.

Lemma py_float_decimal (s : str) (n : N) :
  s ≠ [] -> decimal_value s = Some n -> py_float s = Ok (Z2F (Z.of_N n)).
Proof. intros Hs Hn. unfold py_float. destruct s; [done|]. rewrite Hn. reflexivity. Qed.

Lemma py_float_not_decimal (s : str) :
  decimal_value s = None -> py_float s = Raise ValueError.
Proof. intros Hn. unfold py_float. destruct s; [reflexivity|]. rewrite Hn. reflexivity. Qed.

Lemma py_int_decimal (s : str) (n : N) :
  s ≠ [] -> decimal_value s = Some n -> over_digit_limit L (length s) = false ->
  py_int L s = Ok (Z.of_N n).
Proof.
  intros Hs Hn Hl. unfold py_int. destruct s; [done|]. rewrite Hn, Hl. reflexivity.
Qed.

Lemma py_int_not_decimal (s : str) :
  decimal_value s = None -> py_int L s = Raise ValueError.
Proof. intros Hn. unfold py_int. destruct s; [reflexivity|]. rewrite Hn. reflexivity. Qed.

Lemma str_isdigit_nonempty (s : str) : str_isdigit s = true -> s ≠ [].
Proof. destruct s; [discriminate|done]. Qed.

(** Form 1: the string starts with "günde". *)
Lemma parse_normalized_gunde (rest : str) :
  let f := u "günde" ++ rest in
  parse_normalized L f =
    match List.filter isdigit f with
    | [] => Ok None
    | _ :: _ => x ← py_float (List.filter isdigit f); mret (Some x)
    end.
Proof.
  intros f. unfold parse_normalized. subst f.
  rewrite startswith_app. reflexivity.
Qed.

(** Form 3: "q", digit characters, "h". *)
Lemma parse_normalized_qh (ds : str) :
  let f := u "q" ++ ds ++ u "h" in
  f ≠ u "q24h" ->
  parse_normalized L f =
    if str_isdigit ds then
      hours ← py_int L ds;
      if (0 <? hours)%Z then
        h ← as_float (PInt hours);
        q ← float_truediv (Z2F 24) h;
        mret (Some q)
      else mret None
    else mret None.
Proof.
  intros f Hne. unfold parse_normalized.
  assert (Hg : startswith (u "günde") f = false) by reflexivity.
  assert (Hod : str_eqb f (u "od") = false) by (apply str_eqb_false; discriminate).
  assert (H24 : str_eqb f (u "q24h") = false) by (apply str_eqb_false, Hne).
  rewrite Hg, Hod, H24. cbn [orb].
  assert (Hq : startswith (u "q") f = true) by reflexivity.
  assert (Hh : endswith (u "h") f = true)
    by (subst f; rewrite app_assoc; apply endswith_app).
  rewrite Hq, Hh. cbn [andb].
  replace (slice_1_m1 f) with ds by (symmetry; apply slice_1_m1_inner).
  reflexivity.
Qed.

(** Everything else. *)
Lemma parse_normalized_other (f : str) :
  startswith (u "günde") f = false ->
  f ≠ u "od" -> f ≠ u "q24h" ->
  (forall ds, f = u "q" ++ ds ++ u "h" -> str_isdigit ds = false) ->
  parse_normalized L f = Ok None.
Proof.
  intros Hg Hod H24 Hqh. unfold parse_normalized.
  rewrite Hg. apply str_eqb_false in Hod, H24. rewrite Hod, H24. cbn [orb].
  destruct (startswith (u "q") f) eqn:Hq; [|reflexivity].
  destruct (endswith (u "h") f) eqn:Hh; [|reflexivity]. cbn [andb].
  destruct (starts_ends_inv 113%N 104%N f ltac:(discriminate) Hq Hh) as [ds Hf].
  assert (Hs : slice_1_m1 f = ds) by (rewrite Hf; apply slice_1_m1_inner).
  rewrite Hs, (Hqh ds Hf). reflexivity.
Qed.

End Parser.

(** C2, as amended.  On the frequency after lowercasing and whitespace
    removal, the parser answers as follows.  A string that starts with
    "günde" gives the number written by all the digit characters of the
    string, wherever they stand, when these are decimal digits, and is
    not parseable when it has no digit character.  "od" and "q24h"
    give 1.0.  "q<N>h" other than "q24h", N a non-empty string of
    decimal digits within the interpreter's digit limit, gives
    24.0 / N when N is positive and converts to a finite float, and is
    not parseable when N is zero.  A string that does not start with
    "günde", is neither "od" nor "q24h", and is not "q", a non-empty
    run of characters that [str.isdigit] accepts, "h", is not
    parseable.  The named examples evaluate as the spec lists them.
    Nothing is said of digit characters without a decimal value, nor
    of an N beyond the digit limit or too large for a float. *)
Theorem parse_frequency_forms :
  (forall (U : Unicode) (L : N) (freq : str),
      (forall rest : str,
          normalized freq = u "günde" ++ rest ->
          (List.filter isdigit (normalized freq) = [] ->
           parse_frequency_to_doses_per_day L freq = Ok None)
          /\ (forall n : N,
                List.filter isdigit (normalized freq) ≠ [] ->
                decimal_value (List.filter isdigit (normalized freq)) = Some n ->
                parse_frequency_to_doses_per_day L freq
                = Ok (Some (Z2F (Z.of_N n)))))
      /\ (normalized freq = u "od" \/ normalized freq = u "q24h" ->
          parse_frequency_to_doses_per_day L freq = Ok (Some (Z2F 1)))
      /\ (forall (ds : str) (n : N),
            normalized freq = u "q" ++ ds ++ u "h" ->
            normalized freq ≠ u "q24h" ->
            str_isdigit ds = true ->
            decimal_value ds = Some n ->
            over_digit_limit L (length ds) = false ->
            (n = 0%N -> parse_frequency_to_doses_per_day L freq = Ok None)
            /\ (n ≠ 0%N -> is_infinite (Z2F (Z.of_N n)) = false ->
                parse_frequency_to_doses_per_day L freq
                = Ok (Some (fdiv (Z2F 24) (Z2F (Z.of_N n))))))
      /\ (startswith (u "günde") (normalized freq) = false ->
          normalized freq ≠ u "od" -> normalized freq ≠ u "q24h" ->
          (forall ds, normalized freq = u "q" ++ ds ++ u "h" ->
                      str_isdigit ds = false) ->
          parse_frequency_to_doses_per_day L freq = Ok None))
  /\ (forall L : N,
      parse_frequency_to_doses_per_day (U := latin) L (u "q6h") = Ok (Some (Z2F 4))
      /\ parse_frequency_to_doses_per_day (U := latin) L (u "q8h") = Ok (Some (Z2F 3))
      /\ parse_frequency_to_doses_per_day (U := latin) L (u "od") = Ok (Some (Z2F 1))
      /\ parse_frequency_to_doses_per_day (U := latin) L (u "q24h") = Ok (Some (Z2F 1))
      /\ parse_frequency_to_doses_per_day (U := latin) L (u "günde3") = Ok (Some (Z2F 3))
      /\ parse_frequency_to_doses_per_day (U := latin) L (u "q0h") = Ok None
      /\ parse_frequency_to_doses_per_day (U := latin) L (u "bid") = Ok None
      /\ parse_frequency_to_doses_per_day (U := latin) L (u "q18h")
         = Ok (Some (fdiv (Z2F 24) (Z2F 18)))
      /\ parse_frequency_to_doses_per_day (U := latin) L (u "  Q6H ") = Ok (Some (Z2F 4))
      /\ parse_frequency_to_doses_per_day (U := latin) L (u "Günde 3") = Ok (Some (Z2F 3))).
Proof.
  split.
  - intros U L freq.
    change (parse_frequency_to_doses_per_day L freq)
      with (parse_normalized L (normalized freq)).
    generalize (normalized freq). clear freq. intros f.
    split; [|split; [|split]].
    + intros rest Hf. rewrite Hf, parse_normalized_gunde, <- Hf.
      split.
      * intros ->. reflexivity.
      * intros n Hne Hn. rewrite (py_float_decimal _ n Hne Hn).
        destruct (List.filter isdigit f); [done|reflexivity].
    + intros [-> | ->]; reflexivity.
    + intros ds n Hf Hne Hdig Hn Hlim. subst f.
      rewrite (parse_normalized_qh L ds Hne), Hdig.
      rewrite (py_int_decimal L ds n (str_isdigit_nonempty ds Hdig) Hn Hlim).
      cbn [mbind result_bind]. split.
      * intros ->. reflexivity.
      * intros Hn0 Hfin.
        assert (Hpos : (0 < Z.of_N n)%Z) by lia.
        rewrite (proj2 (Z.ltb_lt _ _) Hpos). cbn [as_float]. rewrite Hfin.
        cbn [mbind result_bind]. unfold float_truediv.
        rewrite (Z2F_positive_nonzero _ Hpos). reflexivity.
    + apply parse_normalized_other.
  - intros L. repeat split; vm_compute; reflexivity.
Qed.

Lemma parse_frequency_forms_witness :
  parse_frequency_to_doses_per_day (U := latin) 4300 (u "q6h")
  = Ok (Some (fdiv (Z2F 24) (Z2F (Z.of_N 6)))).
Proof.
  apply (proj2 (proj1 (proj2 (proj2
           (proj1 parse_frequency_forms latin 4300%N (u "q6h"))))
           (u "6") 6%N eq_refl ltac:(discriminate) eq_refl eq_refl eq_refl));
    [discriminate | reflexivity].
Defined.

(** C2 as stated does not hold: in "günde 2 x 3" the token is not
    followed by a number, so the three forms as worded make it not
    parseable (and no reading of "that digit run" makes it 23), while
    the parser joins the digits 2 and 3 and answers 23.0. *)
Lemma parse_frequency_claimed_forms_counterexample :
  parse_frequency_to_doses_per_day (U := latin) 4300 (u "günde 2 x 3")
    = Ok (Some (Z2F 23))
  /\ claimed_doses_per_day (U := latin) (normalized (U := latin) (u "günde 2 x 3"))
     = None
  /\ ¬ (forall freq : str,
          parse_frequency_to_doses_per_day (U := latin) 4300 freq
          = Ok (claimed_doses_per_day (U := latin) (normalized (U := latin) freq))).
Proof.
  split; [vm_compute; reflexivity|]. split; [vm_compute; reflexivity|].
  intros Hall. specialize (Hall (u "günde 2 x 3")).
  vm_compute in Hall. discriminate.
Qed.

(** C10, at the input where the parser fails.  For a string that starts
    with "günde", the parser hands every character that [str.isdigit]
    accepts to [float]; when one of them has no decimal value, such as
    the superscript two, [float] raises ValueError: the parser neither
    returns a number nor reports the string as not parseable.  With
    decimal digits only, "günde 2 x 3" gives 23.0 and "günde" alone is
    not parseable. *)
Theorem parse_gunde_nondecimal_digit_raises :
  (forall (U : Unicode) (L : N) (freq rest : str),
      normalized freq = u "günde" ++ rest ->
      decimal_value (List.filter isdigit (normalized freq)) = None ->
      parse_frequency_to_doses_per_day L freq = Raise ValueError)
  /\ (forall L : N,
      parse_frequency_to_doses_per_day (U := latin) L (u "günde²") = Raise ValueError
      /\ parse_frequency_to_doses_per_day (U := latin) L (u "günde 2 x 3")
         = Ok (Some (Z2F 23))
      /\ parse_frequency_to_doses_per_day (U := latin) L (u "günde") = Ok None).
Proof.
  split.
  - intros U L freq rest Hf Hn.
    change (parse_frequency_to_doses_per_day L freq)
      with (parse_normalized L (normalized freq)).
    rewrite Hf, parse_normalized_gunde, <- Hf.
    rewrite (py_float_not_decimal _ Hn).
    destruct (List.filter isdigit (normalized freq)); [discriminate|reflexivity].
  - intros L. repeat split; vm_compute; reflexivity.
Qed.

Lemma parse_gunde_nondecimal_digit_raises_witness :
  parse_frequency_to_doses_per_day (U := latin) 4300 (u "günde²") = Raise ValueError.
Proof.
  apply (proj1 parse_gunde_nondecimal_digit_raises latin 4300%N (u "günde²") (u "²"));
    reflexivity.
Defined.

(** ** Rules without a dosing basis *)

(** When the parser answers for the frequency of a rule with no dosing
    basis, the calculator returns no line, and the rule's lines in the
    report are its descriptive line alone. *)
Lemma calc_rule_no_basis {U : Unicode} (L : N) (float_repr : float -> str)
    (r : DoseRule) (pt : Patient) (dpd : option float) :
  doses_per_day L r = Ok dpd ->
  no_dosing_basis r ->
  calc_rule L r pt = Ok []
  /\ rule_lines L float_repr pt r
     = Ok [u "  " ++ u ", " ++ route r ++ u ", " ++ frequency r].
Proof.
  intros Hd (H1 & H2 & H3 & H4).
  assert (Hc : calc_rule L r pt = Ok []) by (apply (calc_rule_no_rate L r pt dpd); assumption).
  split; [exact Hc|].
  unfold rule_lines, describe. rewrite Hc, H1, H2, H3. reflexivity.
Qed.

(** C8, at the input where the calculator fails.  [calc_rule] asks the
    parser for the doses per day before it looks at the dosing basis.
    For a rule with no dosing basis whose frequency is "q²h", the
    parser raises ValueError ([str.isdigit] accepts the superscript two,
    [int] does not), so the calculator raises instead of returning an
    empty sequence, and the report of a drug that holds the rule is
    not produced. *)
Theorem calc_rule_no_basis_parser_raises (L : N) (float_repr : float -> str)
    (pt : Patient) (w : float) :
  no_dosing_basis (rule_of (u "q²h") None None None)
  /\ calc_rule (U := latin) L (rule_of (u "q²h") None None None) pt
     = Raise ValueError
  /\ compute_text (U := latin) L float_repr
       (registry_of (U := latin)
          [add_rule (new_Drug (u "x")) (rule_of (u "q²h") None None None)])
       w (u "x")
     = Raise ValueError.
Proof.
  split; [repeat split|]. split; vm_compute; reflexivity.
Qed.

(** ** Body surface area *)

(** C9. For positive finite weight and height, [mosteller_bsa_m2]
    returns sqrt((height_cm * weight_kg) / 3600) and the weight-only
    surrogate returns ((weight_kg * 4) + 7) / (weight_kg + 90), each
    operation rounded to binary64 and none raising.  For 16 kg and
    100 cm the Mosteller value is the float nearest to 2/3, within
    0.0005 of 0.667; for 10 kg the surrogate is the float nearest to
    0.47. *)
Theorem bsa_formulas :
  (forall (w h : float) (pt : Patient),
      is_positive_finite w = true -> is_positive_finite h = true ->
      weight_kg pt = w ->
      mosteller_bsa_m2 w h = Ok (fsqrt (fdiv (fmul h w) (Z2F 3600)))
      /\ bsa_weight_only_m2 pt
         = Ok (fdiv (fadd (fmul w (Z2F 4)) (Z2F 7)) (fadd w (Z2F 90))))
  /\ (exists x : float,
        mosteller_bsa_m2 (Z2F 16) (Z2F 100) = Ok x
        /\ (Qabs (F2Q x - (667 # 1000)) < (1 # 2000))%Q
        /\ (Qabs (F2Q x - (2 # 3)) <= 1 / 2 ^ 54)%Q)
  /\ (exists x : float,
        bsa_weight_only_m2 (patient_of (Z2F 10)) = Ok x
        /\ x = fdiv (Z2F 47) (Z2F 100)
        /\ (Qabs (F2Q x - (47 # 100)) <= 1 / 2 ^ 55)%Q).
Proof.
  split; [|split].
  - intros w h pt Hw Hh Hpt.
    destruct w as [| | |[] mw ew]; try discriminate.
    destruct h as [| | |[] mh eh]; try discriminate.
    assert (H3600 : Z2F 3600 = S754_finite false 7916483719987200 (-41)) by reflexivity.
    assert (H90 : Z2F 90 = S754_finite false 6333186975989760 (-46)) by reflexivity.
    split.
    + unfold mosteller_bsa_m2, float_truediv. rewrite H3600. cbn [is_zero mbind result_bind].
      unfold math_sqrt.
      rewrite fdiv_not_negative by apply fmul_positive_not_negative. reflexivity.
    + unfold bsa_weight_only_m2, float_truediv. rewrite Hpt, H90.
      rewrite fadd_positive_nonzero by (vm_compute; reflexivity). reflexivity.
  - eexists. split; [vm_compute; reflexivity|]. split; vm_compute; [reflexivity|discriminate].
  - eexists. split; [vm_compute; reflexivity|]. split; [vm_compute; reflexivity|].
    vm_compute. discriminate.
Qed.

Lemma bsa_formulas_witness :
  mosteller_bsa_m2 (Z2F 16) (Z2F 100)
    = Ok (fsqrt (fdiv (fmul (Z2F 100) (Z2F 16)) (Z2F 3600)))
  /\ bsa_weight_only_m2 (patient_of (Z2F 16))
     = Ok (fdiv (fadd (fmul (Z2F 16) (Z2F 4)) (Z2F 7)) (fadd (Z2F 16) (Z2F 90))).
Proof.
  apply (proj1 bsa_formulas (Z2F 16) (Z2F 100) (patient_of (Z2F 16)));
    reflexivity.
Defined.

(* ===================================================================== *)
(** * Further properties of the code *)
(* ===================================================================== *)

(** ** Which exceptions the report path can raise *)

Lemma for_each_never {A B} (f : A -> result B) (l : list A) (e : exn) :
  (forall x, f x ≠ Raise e) -> for_each f l ≠ Raise e.
Proof.
  intros Hf. induction l as [|x l IH]; [discriminate|].
  cbn [for_each]. specialize (Hf x). destruct (f x) as [y|e']; cbn; [|congruence].
  destruct (for_each f l) as [ys|e'']; cbn; [discriminate|congruence].
Qed.

Section NoZeroDivision.
Context {U : Unicode}.
Variable L : N.
Variable float_repr : float -> str.

Lemma parse_normalized_no_zero_division (f : str) :
  parse_normalized L f ≠ Raise ZeroDivisionError.
Proof.
  unfold parse_normalized.
  destruct (startswith (u "günde") f).
  { destruct (List.filter isdigit f) as [|c num]; [discriminate|].
    unfold py_float. destruct (decimal_value (c :: num)); discriminate. }
  destruct (str_eqb f (u "od") || str_eqb f (u "q24h")); [discriminate|].
  destruct (startswith (u "q") f && endswith (u "h") f); [|discriminate].
  destruct (str_isdigit (slice_1_m1 f)); [|discriminate].
  unfold py_int. destruct (slice_1_m1 f) as [|c num]; [discriminate|].
  destruct (decimal_value (c :: num)) as [n|]; [|discriminate].
  destruct (over_digit_limit L (length (c :: num))); [discriminate|].
  cbn [mbind result_bind].
  destruct (0 <? Z.of_N n)%Z eqn:Hpos; [|discriminate].
  apply Z.ltb_lt in Hpos. cbn [as_float].
  destruct (is_infinite (Z2F (Z.of_N n))); [discriminate|].
  cbn [mbind result_bind]. unfold float_truediv.
  rewrite (Z2F_positive_nonzero _ Hpos). discriminate.
Qed.

Lemma calc_rule_no_zero_division (r : DoseRule) (pt : Patient) :
  calc_rule L r pt ≠ Raise ZeroDivisionError.
Proof.
  unfold calc_rule, doses_per_day, parse_frequency_to_doses_per_day.
  pose proof (parse_normalized_no_zero_division
                (remove_spaces (str_lower (strip (frequency r))))) as Hp.
  destruct (parse_normalized L _) as [dpd|e]; cbn [mbind result_bind]; [|congruence].
  destruct (mg_per_kg_per_day r) as [rate|]; [|discriminate].
  destruct (num_truthy rate); [|discriminate].
  unfold mg_day_of. destruct rate as [z|x]; cbn [as_float].
  - destruct (is_infinite (Z2F z)); [discriminate|]. cbn [mbind result_bind].
    unfold mg_dose_of, float_truediv, float_truthy.
    destruct dpd as [d|]; [|discriminate].
    destruct (is_zero d); discriminate.
  - cbn [mbind result_bind].
    unfold mg_dose_of, float_truediv, float_truthy.
    destruct dpd as [d|]; [|discriminate].
    destruct (is_zero d); discriminate.
Qed.

Lemma describe_no_zero_division (r : DoseRule) :
  describe L float_repr r ≠ Raise ZeroDivisionError.
Proof.
  unfold describe, describe_part, num_str, int_str.
  destruct (mg_per_kg_per_day r) as [[z|x]|]; cbn [mbind result_bind];
    try destruct (over_digit_limit L _); cbn [mbind result_bind]; try discriminate;
  destruct (mg_per_kg_per_dose r) as [[z'|x']|]; cbn [mbind result_bind];
    try destruct (over_digit_limit L _); cbn [mbind result_bind]; try discriminate;
  destruct (mg_per_m2_per_day r) as [[z''|x'']|]; cbn [mbind result_bind];
    try destruct (over_digit_limit L _); cbn [mbind result_bind]; discriminate.
Qed.

(** Neither the parser, nor the calculator, nor the report ever raises
    ZeroDivisionError, for any frequency text, rule, weight, registry
    and query: the parser divides by the hours only when they are
    positive, and the calculator divides by the doses per day only when
    they are not zero. *)
Theorem report_path_never_divides_by_zero :
  (forall freq : str,
      parse_frequency_to_doses_per_day L freq ≠ Raise ZeroDivisionError)
  /\ (forall (r : DoseRule) (pt : Patient),
      calc_rule L r pt ≠ Raise ZeroDivisionError)
  /\ (forall (registry : gmap str Drug) (w : float) (q : str),
      compute_text L float_repr registry w q ≠ Raise ZeroDivisionError).
Proof.
  split; [|split].
  - intros freq. apply parse_normalized_no_zero_division.
  - apply calc_rule_no_zero_division.
  - intros registry w q. unfold compute_text.
    destruct (lookup_drug registry q) as [d|]; [|discriminate].
    assert (Hb : for_each (indication_lines L float_repr (patient_of w))
                   (rules_by_indication d) ≠ Raise ZeroDivisionError).
    { apply for_each_never. intros g. unfold indication_lines.
      assert (Hr : for_each (rule_lines L float_repr (patient_of w)) g.2
                   ≠ Raise ZeroDivisionError).
      { apply for_each_never. intros r. unfold rule_lines.
        pose proof (describe_no_zero_division r) as Hd.
        destruct (describe L float_repr r); cbn [mbind result_bind]; [|congruence].
        pose proof (calc_rule_no_zero_division r (patient_of w)) as Hc.
        destruct (calc_rule L r (patient_of w)); cbn [mbind result_bind];
          [discriminate|congruence]. }
      destruct (for_each _ g.2); cbn [mbind result_bind]; [discriminate|congruence]. }
    unfold patient_of in Hb.
    destruct (for_each _ (rules_by_indication d)); cbn [mbind result_bind];
      [discriminate|congruence].
Qed.

End NoZeroDivision.

Section CalculatorMore.
Context {U : Unicode}.
Variable L : N.

(** The calculator reads the frequency and mg_per_kg_per_day of the
    rule and the weight of the patient, nothing else: rules and
    patients that agree on these give the same outcome.  A rule
    without mg_per_kg_per_day gets no computed line whatever its other
    three bases are, so a rule dosed per m2 is never computed; and a
    returned sequence has no line or exactly two. *)
Theorem calc_rule_only_mg_per_kg_per_day :
  (forall (r1 r2 : DoseRule) (pt1 pt2 : Patient),
      frequency r1 = frequency r2 ->
      mg_per_kg_per_day r1 = mg_per_kg_per_day r2 ->
      weight_kg pt1 = weight_kg pt2 ->
      calc_rule L r1 pt1 = calc_rule L r2 pt2)
  /\ (forall (r : DoseRule) (pt : Patient) (xs : list str),
      mg_per_kg_per_day r = None ->
      calc_rule L r pt = Ok xs -> xs = [])
  /\ (forall (r : DoseRule) (pt : Patient) (xs : list str),
      calc_rule L r pt = Ok xs -> length xs = 0 \/ length xs = 2).
Proof.
  split; [|split].
  - intros r1 r2 pt1 pt2 Hf Hr Hw.
    unfold calc_rule, doses_per_day, mg_day_of. rewrite Hf, Hr, Hw. reflexivity.
  - intros r pt xs Hr. unfold calc_rule. rewrite Hr.
    destruct (doses_per_day L r); cbn [mbind result_bind]; [|discriminate].
    intros [= <-]. reflexivity.
  - intros r pt xs. unfold calc_rule.
    destruct (doses_per_day L r) as [dpd|]; cbn [mbind result_bind]; [|discriminate].
    destruct (mg_per_kg_per_day r) as [rate|]; [|intros [= <-]; auto].
    destruct (num_truthy rate); [|intros [= <-]; auto].
    destruct (mg_day_of rate pt) as [mg_day|]; cbn [mbind result_bind]; [|discriminate].
    destruct (mg_dose_of mg_day dpd); cbn [mbind result_bind]; [|discriminate].
    intros [= <-]. auto.
Qed.

(** A frequency that parses to zero doses per day (such as "günde 0")
    is handled like an unknown frequency: the calculator does not
    divide by it, and the per-dose line shows the day total. *)
Theorem calc_rule_zero_doses_per_day (r : DoseRule) (pt : Patient)
    (rate : num) (a d : float) :
  doses_per_day L r = Ok (Some d) ->
  is_zero d = true ->
  mg_per_kg_per_day r = Some rate ->
  num_truthy rate = true ->
  as_float rate = Ok a ->
  calc_rule L r pt
  = Ok [u "→ " ++ format_f0 (fmul a (weight_kg pt)) ++ u " mg/doz";
        u "→ " ++ format_f0 (fmul a (weight_kg pt)) ++ u " mg/gün"].
Proof.
  intros Hd Hz Hr Ht Ha.
  rewrite (calc_rule_parsed L r pt (Some d) Hd), Hr, Ht.
  unfold mg_day_of. rewrite Ha. cbn [mbind result_bind mret result_ret].
  unfold mg_dose_of, float_truthy. rewrite Hz. reflexivity.
Qed.

End CalculatorMore.

Lemma calc_rule_only_mg_per_kg_per_day_witness :
  calc_rule (U := latin) 4300
    {| indication := u "sepsis"; route := u "PO"; frequency := u "q6h";
       mg_per_kg_per_day := Some (PInt 100); mg_per_kg_per_dose := Some (PInt 5);
       mg_per_m2_per_day := Some (PInt 300); mg_per_m2_per_dose := None;
       max_mg_per_day := None; max_mg_per_dose := None; notes := u "n" |}
    {| weight_kg := Z2F 10; height_cm := Some (Z2F 100) |}
  = calc_rule (U := latin) 4300 (rule_genel 100) (patient_of (Z2F 10)).
Proof.
  apply (proj1 (calc_rule_only_mg_per_kg_per_day (U := latin) 4300)); reflexivity.
Defined.

Lemma calc_rule_zero_doses_per_day_witness :
  calc_rule (U := latin) 4300 (rule_of (u "günde 0") (Some (PInt 100)) None None)
    (patient_of (Z2F 10))
  = Ok [u "→ " ++ format_f0 (fmul (Z2F 100) (Z2F 10)) ++ u " mg/doz";
        u "→ " ++ format_f0 (fmul (Z2F 100) (Z2F 10)) ++ u " mg/gün"].
Proof.
  apply (calc_rule_zero_doses_per_day (U := latin) 4300
           (rule_of (u "günde 0") (Some (PInt 100)) None None)
           (patient_of (Z2F 10)) (PInt 100) (Z2F 100) (Z2F 0));
    reflexivity.
Defined.

(** ** Registration *)

(** [register] stores by lowercased name and overwrites: a registered
    drug is found under every query equal to its name up to letter
    case; of two drugs whose names are equal up to letter case the one
    registered last is the one found, and the registry is as if the
    first had never been registered, so registering a drug twice is
    the same as registering it once; the order of registration does
    not matter for drugs whose names differ beyond case, and
    registering a drug changes no lookup of a query that differs from
    its name beyond case. *)
Theorem register_overwrites_by_lowercase_name (U : Unicode) :
  (forall (registry : gmap str Drug) (d : Drug) (q : str),
      same_up_to_case q (name d) ->
      lookup_drug (register d registry) q = Some d)
  /\ (forall (registry : gmap str Drug) (d1 d2 : Drug) (q : str),
      same_up_to_case (name d1) (name d2) ->
      same_up_to_case q (name d2) ->
      lookup_drug (register d2 (register d1 registry)) q = Some d2)
  /\ (forall (registry : gmap str Drug) (d1 d2 : Drug),
      same_up_to_case (name d1) (name d2) ->
      register d2 (register d1 registry) = register d2 registry)
  /\ (forall (registry : gmap str Drug) (d : Drug),
      register d (register d registry) = register d registry)
  /\ (forall (registry : gmap str Drug) (d1 d2 : Drug),
      ¬ same_up_to_case (name d1) (name d2) ->
      register d2 (register d1 registry) = register d1 (register d2 registry))
  /\ (forall (registry : gmap str Drug) (d : Drug) (q : str),
      ¬ same_up_to_case q (name d) ->
      lookup_drug (register d registry) q = lookup_drug registry q).
Proof.
  unfold same_up_to_case, register, lookup_drug. repeat split.
  - intros registry d q ->. apply lookup_insert_eq.
  - intros registry d1 d2 q _ ->. apply lookup_insert_eq.
  - intros registry d1 d2 ->. apply insert_insert_eq.
  - intros registry d. apply insert_insert_eq.
  - intros registry d1 d2 Hne. apply insert_insert_ne. congruence.
  - intros registry d q Hne. apply lookup_insert_ne. congruence.
Qed.

Lemma register_overwrites_by_lowercase_name_witness :
  lookup_drug (U := latin)
    (register (U := latin) (new_Drug (u "AMPISILIN SULBAKTAM"))
       (register (U := latin) amp ∅))
    (u "Ampisilin Sulbaktam")
  = Some (new_Drug (u "AMPISILIN SULBAKTAM")).
Proof.
  apply (proj1 (proj2 (register_overwrites_by_lowercase_name latin)) ∅ amp
           (new_Drug (u "AMPISILIN SULBAKTAM")) (u "Ampisilin Sulbaktam"));
    vm_compute; reflexivity.
Defined.

(** ** The grouping keeps every rule *)

Lemma setdefault_append_concat (k : str) (r : DoseRule) (d : list (str * list DoseRule)) :
  concat (setdefault_append k r d).*2 ≡ₚ concat d.*2 ++ [r].
Proof.
  induction d as [|[k' rs] d IH]; cbn [setdefault_append]; [reflexivity|].
  destruct (decide (k' = k)); cbn [fmap list_fmap concat snd].
  - rewrite <- !app_assoc. apply Permutation_app_head, Permutation_app_comm.
  - change (list_fmap _ _ snd (setdefault_append k r d)) with ((setdefault_append k r d).*2).
    rewrite IH, app_assoc. reflexivity.
Qed.

Lemma setdefault_append_new (k : str) (r : DoseRule) (d : list (str * list DoseRule)) :
  k ∉ d.*1 -> setdefault_append k r d = d ++ [(k, [r])].
Proof.
  induction d as [|[k' rs] d IH]; cbn [setdefault_append]; [reflexivity|].
  rewrite fmap_cons, not_elem_of_cons. cbn [fst]. intros [Hne Hk].
  rewrite decide_False by congruence. rewrite IH by exact Hk. reflexivity.
Qed.

Lemma setdefault_append_old (k : str) (r : DoseRule) (d : list (str * list DoseRule)) :
  NoDup d.*1 -> k ∈ d.*1 ->
  setdefault_append k r d
  = (fun g => if decide (g.1 = k) then (g.1, g.2 ++ [r]) else g) <$> d.
Proof.
  induction d as [|[k' rs] d IH]; cbn [setdefault_append].
  - intros _ Hk. by apply not_elem_of_nil in Hk.
  - rewrite !fmap_cons. cbn [fst snd]. intros [Hk' Hnd]%NoDup_cons Hk.
    destruct (decide (k' = k)) as [->|Hne].
    + f_equal. symmetry. rewrite <- (list_fmap_id d) at 2.
      apply list_fmap_ext. intros _ [k2 rs2] Hin%list_elem_of_lookup_2.
      cbn [fst snd]. rewrite decide_False; [reflexivity|].
      intros ->. apply Hk', list_elem_of_fmap. exists (k, rs2). auto.
    + f_equal. apply IH; [exact Hnd|].
      apply elem_of_cons in Hk as [?|?]; [congruence|assumption].
Qed.

Lemma rules_by_indication_add_rule (d : Drug) (r : DoseRule) :
  rules_by_indication (add_rule d r)
  = setdefault_append (indication r) r (rules_by_indication d).
Proof.
  unfold rules_by_indication, add_rule. cbn [rules].
  rewrite foldl_snoc. reflexivity.
Qed.

Lemma rules_by_indication_keys (d : Drug) :
  (rules_by_indication d).*1 = first_seen (indication <$> rules d).
Proof.
  rewrite rules_by_indication_grouped. unfold grouped_by_indication.
  rewrite <- list_fmap_compose. apply list_fmap_id.
Qed.

(** [rules_by_indication] is a partition of the rules of the drug: no
    indication is listed twice, no group is empty, the rules of a group
    all carry the indication of the group, and the groups together hold
    every rule exactly once. *)
Theorem rules_by_indication_partition (d : Drug) :
  NoDup (rules_by_indication d).*1
  /\ Forall (fun g => g.2 ≠ [] /\ Forall (fun r => indication r = g.1) g.2)
            (rules_by_indication d)
  /\ concat (rules_by_indication d).*2 ≡ₚ rules d.
Proof.
  split; [|split].
  - rewrite rules_by_indication_keys. apply NoDup_first_seen.
  - rewrite rules_by_indication_grouped. unfold grouped_by_indication.
    apply Forall_fmap, Forall_forall. intros i Hi. cbn [fst snd].
    apply elem_of_first_seen, list_elem_of_fmap in Hi as (r & -> & Hr).
    unfold rules_of_indication. split.
    + intros Hnil. apply (filter_nil_not_elem_of _ _ r Hnil); [reflexivity|exact Hr].
    + apply Forall_forall. intros r' Hr'%list_elem_of_filter. tauto.
  - unfold rules_by_indication.
    induction (rules d) as [|r rs IH] using rev_ind; [reflexivity|].
    rewrite foldl_snoc, setdefault_append_concat, IH. reflexivity.
Qed.

(** Adding a rule to a drug extends the grouping at one place: a rule
    of a new indication opens a new last group that holds it alone; a
    rule of a known indication goes to the end of the group of its
    indication, and every other group and the order of the groups stay
    as they are. *)
Theorem add_rule_extends_grouping (d : Drug) (r : DoseRule) :
  (indication r ∉ (rules_by_indication d).*1 ->
   rules_by_indication (add_rule d r)
   = rules_by_indication d ++ [(indication r, [r])])
  /\ (indication r ∈ (rules_by_indication d).*1 ->
     rules_by_indication (add_rule d r)
     = (fun g => if decide (g.1 = indication r) then (g.1, g.2 ++ [r]) else g)
         <$> rules_by_indication d).
Proof.
  rewrite rules_by_indication_add_rule. split.
  - apply setdefault_append_new.
  - apply setdefault_append_old.
    rewrite rules_by_indication_keys. apply NoDup_first_seen.
Qed.

Lemma add_rule_extends_grouping_witness :
  rules_by_indication (add_rule (add_rule (new_Drug (u "x")) (rule_genel 100)) (rule_genel 200))
  = (fun g => if decide (g.1 = indication (rule_genel 200))
              then (g.1, g.2 ++ [rule_genel 200]) else g)
      <$> rules_by_indication (add_rule (new_Drug (u "x")) (rule_genel 100)).
Proof.
  apply (proj2 (add_rule_extends_grouping
                  (add_rule (new_Drug (u "x")) (rule_genel 100)) (rule_genel 200))).
  vm_compute. apply list_elem_of_here.
Defined.

(** ** Surrounding whitespace *)

Lemma lstrip_app (s t : str) :
  lstrip (s ++ t) = match lstrip s with [] => lstrip t | _ => lstrip s ++ t end.
Proof.
  induction s as [|c s IH]; cbn [app lstrip]; [reflexivity|].
  destruct (isspace c); [exact IH|reflexivity].
Qed.

Lemma lstrip_whitespace (s : str) :
  Forall (fun c => isspace c = true) s -> lstrip s = [].
Proof.
  induction 1 as [|c s Hc _ IH]; cbn [lstrip]; [reflexivity|].
  rewrite Hc. exact IH.
Qed.

Lemma rstrip_nil : rstrip [] = [].
Proof. reflexivity. Qed.

Lemma rstrip_app_whitespace (s post : str) :
  Forall (fun c => isspace c = true) post -> rstrip (s ++ post) = rstrip s.
Proof.
  intros Hpost. unfold rstrip. rewrite rev_app_distr, lstrip_app.
  rewrite lstrip_whitespace by (apply Forall_forall; intros c Hc%list_elem_of_In%in_rev%list_elem_of_In;
                                revert c Hc; apply Forall_forall, Hpost).
  reflexivity.
Qed.

Lemma strip_surrounding_whitespace (pre s post : str) :
  Forall (fun c => isspace c = true) pre ->
  Forall (fun c => isspace c = true) post ->
  strip (pre ++ s ++ post) = strip s.
Proof.
  intros Hpre Hpost. unfold strip.
  rewrite lstrip_app, (lstrip_whitespace pre Hpre), lstrip_app.
  destruct (lstrip s) as [|c t] eqn:Hs.
  - rewrite (lstrip_whitespace post Hpost). reflexivity.
  - apply rstrip_app_whitespace, Hpost.
Qed.

(** Whitespace before and after the text never matters: the frequency
    parser and [normalize_text] give the same result with and without
    it, whatever the whitespace characters are (spaces, tabs, line
    ends, no-break spaces). *)
Theorem surrounding_whitespace_ignored (U : Unicode) (L : N) (pre s post : str) :
  Forall (fun c => isspace c = true) pre ->
  Forall (fun c => isspace c = true) post ->
  parse_frequency_to_doses_per_day L (pre ++ s ++ post)
  = parse_frequency_to_doses_per_day L s
  /\ normalize_text (pre ++ s ++ post) = normalize_text s.
Proof.
  intros Hpre Hpost.
  unfold parse_frequency_to_doses_per_day, normalize_text.
  rewrite (strip_surrounding_whitespace pre s post Hpre Hpost). auto.
Qed.

Lemma surrounding_whitespace_ignored_witness :
  parse_frequency_to_doses_per_day (U := latin) 4300
    ([9; 0xA0]%N ++ u "q6h" ++ [32; 10]%N)
  = parse_frequency_to_doses_per_day (U := latin) 4300 (u "q6h")
  /\ normalize_text (U := latin) ([9; 0xA0]%N ++ u "q6h" ++ [32; 10]%N)
     = normalize_text (U := latin) (u "q6h").
Proof.
  apply (surrounding_whitespace_ignored latin 4300%N [9; 0xA0]%N (u "q6h") [32; 10]%N);
    repeat constructor.
Defined.

(** ** When the body-surface formulas raise *)

Lemma binary_round_aux_negative (s : bool) (m e : Z) (l : location) :
  is_negative (binary_round_aux prec emax s m e l) = true -> s = true.
Proof.
  destruct s; [reflexivity|]. rewrite binary_round_aux_not_negative. discriminate.
Qed.

Lemma fmul_negative (a b : float) :
  is_negative (fmul a b) = true -> is_negative a ≠ is_negative b.
Proof.
  destruct a as [sa|sa| |sa ma ea], b as [sb|sb| |sb mb eb];
    unfold fmul, SFmul; cbn [is_negative]; try discriminate;
    try (destruct sa, sb; cbn; intros; congruence).
  intros Hs%binary_round_aux_negative. destruct sa, sb; cbn in *; congruence.
Qed.

Lemma fdiv_negative (x : float) (my : positive) (ey : Z) :
  is_negative (fdiv x (S754_finite false my ey)) = true -> is_negative x = true.
Proof.
  destruct (is_negative x) eqn:Hx; [reflexivity|].
  rewrite (fdiv_not_negative x my ey Hx). discriminate.
Qed.

(** [mosteller_bsa_m2] raises only the ValueError of [math.sqrt], and
    only when weight and height have opposite signs; the weight-only
    surrogate raises only ZeroDivisionError, and only for a negative
    finite weight, as it does for -90 kg.  For all other inputs (zeros,
    infinities and NaN included) both return. *)
Theorem bsa_raises_only_on_negative_input :
  (forall (w h : float) (e : exn),
      mosteller_bsa_m2 w h = Raise e ->
      e = ValueError /\ is_negative w ≠ is_negative h)
  /\ (forall (pt : Patient) (e : exn),
      bsa_weight_only_m2 pt = Raise e ->
      e = ZeroDivisionError /\ exists m ex, weight_kg pt = S754_finite true m ex)
  /\ bsa_weight_only_m2 (patient_of (Z2F (-90))) = Raise ZeroDivisionError
  /\ mosteller_bsa_m2 (Z2F (-16)) (Z2F 100) = Raise ValueError.
Proof.
  assert (H3600 : Z2F 3600 = S754_finite false 7916483719987200 (-41)) by reflexivity.
  assert (H90 : Z2F 90 = S754_finite false 6333186975989760 (-46)) by reflexivity.
  split; [|split; [|split; vm_compute; reflexivity]].
  - intros w h e. unfold mosteller_bsa_m2, float_truediv. rewrite H3600.
    cbn [is_zero mbind result_bind]. unfold math_sqrt.
    destruct (is_negative (fdiv (fmul h w) _)) eqn:Hn; [|discriminate].
    intros [= <-]. split; [reflexivity|].
    apply fdiv_negative, fmul_negative in Hn. congruence.
  - intros pt e. unfold bsa_weight_only_m2, float_truediv. rewrite H90.
    destruct (weight_kg pt) as [s|s| |[] m ex] eqn:Hw.
    + discriminate.
    + destruct s; discriminate.
    + discriminate.
    + destruct (is_zero _); [|discriminate]. intros [= <-]. eauto.
    + rewrite fadd_positive_nonzero by (vm_compute; reflexivity). discriminate.
Qed.

Lemma bsa_raises_only_on_negative_input_witness :
  ValueError = ValueError /\ is_negative (Z2F (-16)) ≠ is_negative (Z2F 100).
Proof.
  apply (proj1 bsa_raises_only_on_negative_input (Z2F (-16)) (Z2F 100) ValueError).
  vm_compute. reflexivity.
Defined.

(** ** Rounding to whole milligrams *)

(** The integer that [format(x, ".0f")] prints for a finite float
    [m * 2^e] is the nearest integer: it is within one half of the
    value, and on a tie it is the even neighbour. *)
Theorem format_f0_nearest_integer (s : bool) (m : positive) (e : Z) :
  let n := round_half_even (Zpos m) e in
  format_f0 (S754_finite s m e) = sign_str s ++ N_str (Z.to_N n)
  /\ (0 <= n)%Z
  /\ ((0 <= e)%Z -> n = (Zpos m * 2 ^ e)%Z)
  /\ ((e < 0)%Z ->
      (Z.abs (2 * (n * 2 ^ (- e) - Zpos m)) <= 2 ^ (- e))%Z
      /\ (Z.abs (2 * (n * 2 ^ (- e) - Zpos m)) = 2 ^ (- e) -> Z.even n = true)%Z).
Proof.
  intros n. split; [reflexivity|]. subst n. unfold round_half_even.
  destruct (0 <=? e)%Z eqn:He.
  - apply Z.leb_le in He. split; [|split]; [|reflexivity|intros Hlt; exfalso; lia].
    apply Z.mul_nonneg_nonneg; [lia|]. apply Z.pow_nonneg. lia.
  - apply Z.leb_gt in He.
    assert (Hd : (0 < 2 ^ (- e))%Z) by (apply Z.pow_pos_nonneg; lia).
    set (d := (2 ^ (- e))%Z) in *.
    pose proof (Z.div_mod (Zpos m) d ltac:(lia)) as Hdm.
    pose proof (Z.mod_pos_bound (Zpos m) d Hd) as Hr.
    assert (Hq : (0 <= Zpos m / d)%Z) by (apply Z.div_pos; lia).
    set (q := (Zpos m / d)%Z) in *. set (r := (Zpos m mod d)%Z) in *.
    assert (Hq0 : (q * d - Zpos m = - r)%Z) by lia.
    assert (Hq1 : ((q + 1) * d - Zpos m = d - r)%Z) by lia.
    clearbody q r d.
    destruct (2 * r ?= d)%Z eqn:Hc.
    + apply Z.compare_eq in Hc.
      destruct (Z.even q) eqn:Hev.
      * split; [lia|]. split; [intros Hge; exfalso; lia|]. intros _.
        rewrite Hq0. split; [lia|]. intros _. exact Hev.
      * split; [lia|]. split; [intros Hge; exfalso; lia|]. intros _.
        rewrite Hq1. split; [lia|]. intros _.
        rewrite Z.even_add, Hev. reflexivity.
    + change (2 * r < d)%Z in Hc. split; [lia|].
      split; [intros Hge; exfalso; lia|].
      intros _. rewrite Hq0. split; [lia|]. intros Habs. exfalso. lia.
    + rewrite Z.compare_gt_iff in Hc. split; [lia|].
      split; [intros Hge; exfalso; lia|].
      intros _. rewrite Hq1. split; [lia|]. intros Habs. exfalso. lia.
Qed.

Lemma format_f0_nearest_integer_witness :
  (Z.abs (2 * (round_half_even 5 (-1) * 2 ^ (- (-1)) - 5)) <= 2 ^ (- (-1)))%Z
  /\ (Z.abs (2 * (round_half_even 5 (-1) * 2 ^ (- (-1)) - 5)) = 2 ^ (- (-1))
      -> Z.even (round_half_even 5 (-1)) = true)%Z.
Proof.
  apply (proj2 (proj2 (proj2 (format_f0_nearest_integer false 5 (-1))))).
  reflexivity.
Defined.

(** ** The report of the program's own registry *)

Section Shipped.
Context {U : Unicode}.
Variable L : N.
Variable float_repr : float -> str.

Lemma calc_rule_genel (rate : Z) (w : float) :
  parse_frequency_to_doses_per_day L (u "q6h") = Ok (Some (Z2F 4)) ->
  rate ≠ 0%Z -> is_infinite (Z2F rate) = false ->
  calc_rule L (rule_genel rate) (patient_of w)
  = Ok [u "→ " ++ format_f0 (fdiv (fmul (Z2F rate) w) (Z2F 4)) ++ u " mg/doz";
        u "→ " ++ format_f0 (fmul (Z2F rate) w) ++ u " mg/gün"].
Proof.
  intros Hp Hr Hfin.
  rewrite (calc_rule_parsed L (rule_genel rate) (patient_of w) (Some (Z2F 4)) Hp).
  cbn [rule_genel mg_per_kg_per_day num_truthy].
  rewrite (proj2 (Z.eqb_neq rate 0) Hr). cbn [negb].
  unfold mg_day_of. cbn [as_float]. rewrite Hfin. reflexivity.
Qed.

(** With the registry the program builds at start-up, [compute_text]
    never raises, whatever the weight (zero, negative, infinite and
    NaN included) and the query: it returns the not-found message, or
    the report of the one registered drug with its two rules under one
    header, the per-dose figure being the day total divided by 4.  The
    only assumption is that the interpreter parses "q6h" as it does. *)
Theorem compute_text_shipped_registry (w : float) (q : str) :
  parse_frequency_to_doses_per_day L (u "q6h") = Ok (Some (Z2F 4)) ->
  compute_text L float_repr REGISTRY w q = Ok (u "İlaç bulunamadı.")
  \/ compute_text L float_repr REGISTRY w q
     = Ok (join [10%N]
             [u "İLAÇ: Ampisilin Sulbaktam";
              u "Kilo: " ++ float_repr w ++ u " kg";
              10%N :: str_upper (u "genel") ++ u ":";
              u "  100 mg/kg/gün, IV, q6h";
              u "   → " ++ format_f0 (fdiv (fmul (Z2F 100) w) (Z2F 4)) ++ u " mg/doz";
              u "   → " ++ format_f0 (fmul (Z2F 100) w) ++ u " mg/gün";
              u "  200 mg/kg/gün, IV, q6h";
              u "   → " ++ format_f0 (fdiv (fmul (Z2F 200) w) (Z2F 4)) ++ u " mg/doz";
              u "   → " ++ format_f0 (fmul (Z2F 200) w) ++ u " mg/gün"]).
Proof.
  intros Hp. unfold compute_text.
  destruct (lookup_drug REGISTRY q) as [d|] eqn:Hq; [right|left; reflexivity].
  assert (Hd : d = amp).
  { unfold lookup_drug, REGISTRY, register in Hq.
    rewrite lookup_insert in Hq. case_decide; [congruence|].
    rewrite lookup_empty in Hq. discriminate. }
  subst d.
  change (rules_by_indication amp)
    with [(u "genel", [rule_genel 100; rule_genel 200])].
  cbn [for_each]. unfold indication_lines. cbn [snd fst for_each].
  unfold rule_lines.
  change {| weight_kg := w; height_cm := None |} with (patient_of w).
  rewrite !calc_rule_genel by (exact Hp || discriminate || reflexivity).
  reflexivity.
Qed.

End Shipped.

Lemma compute_text_shipped_registry_witness :
  compute_text (U := latin) 4300 (fun _ => u "10.0") (REGISTRY (U := latin))
    (Z2F 10) (u "ampisilin sulbaktam") = Ok (u "İlaç bulunamadı.")
  \/ compute_text (U := latin) 4300 (fun _ => u "10.0") (REGISTRY (U := latin))
       (Z2F 10) (u "ampisilin sulbaktam")
     = Ok (join [10%N]
             [u "İLAÇ: Ampisilin Sulbaktam";
              u "Kilo: " ++ u "10.0" ++ u " kg";
              10%N :: str_upper (Unicode := latin) (u "genel") ++ u ":";
              u "  100 mg/kg/gün, IV, q6h";
              u "   → " ++ format_f0 (fdiv (fmul (Z2F 100) (Z2F 10)) (Z2F 4)) ++ u " mg/doz";
              u "   → " ++ format_f0 (fmul (Z2F 100) (Z2F 10)) ++ u " mg/gün";
              u "  200 mg/kg/gün, IV, q6h";
              u "   → " ++ format_f0 (fdiv (fmul (Z2F 200) (Z2F 10)) (Z2F 4)) ++ u " mg/doz";
              u "   → " ++ format_f0 (fmul (Z2F 200) (Z2F 10)) ++ u " mg/gün"]).
Proof.
  apply (compute_text_shipped_registry (U := latin) 4300 (fun _ => u "10.0")
           (Z2F 10) (u "ampisilin sulbaktam")).
  reflexivity.
Defined.

(** ** The shape of a normalized text *)

Lemma split_ws_aux_words (cur s : str) :
  Forall (fun c => isspace c = false) cur ->
  Forall (fun w => w ≠ [] /\ Forall (fun c => isspace c = false) w)
         (split_ws_aux cur s).
Proof.
  revert cur. induction s as [|c s IH]; intros cur Hcur; cbn [split_ws_aux].
  - destruct cur as [|a cur]; [constructor|].
    constructor; [|constructor]. split.
    + intros Hnil. apply (f_equal (@length _)) in Hnil.
      rewrite length_rev in Hnil. discriminate.
    + apply Forall_forall. intros x Hx%list_elem_of_In%in_rev%list_elem_of_In.
      revert x Hx. apply Forall_forall, Hcur.
  - destruct (isspace c) eqn:Hc.
    + destruct cur as [|a cur]; [apply IH; constructor|].
      constructor; [|apply IH; constructor]. split.
      * intros Hnil. apply (f_equal (@length _)) in Hnil.
        rewrite length_rev in Hnil. discriminate.
      * apply Forall_forall. intros x Hx%list_elem_of_In%in_rev%list_elem_of_In.
        revert x Hx. apply Forall_forall, Hcur.
    + apply IH. constructor; assumption.
Qed.

Lemma split_ws_aux_chars (cur s : str) (w : str) (c : cp) :
  w ∈ split_ws_aux cur s -> c ∈ w -> c ∈ cur \/ c ∈ s.
Proof.
  revert cur. induction s as [|a s IH]; intros cur; cbn [split_ws_aux].
  - destruct cur as [|b cur]; [intros Hw; by apply not_elem_of_nil in Hw|].
    intros ->%list_elem_of_singleton Hc%list_elem_of_In%in_rev%list_elem_of_In. auto.
  - destruct (isspace a).
    + destruct cur as [|b cur].
      * intros Hw Hc. destruct (IH [] Hw Hc) as [H|H]; [by apply not_elem_of_nil in H|].
        right. apply elem_of_cons. auto.
      * intros [->|Hw]%elem_of_cons Hc.
        -- apply list_elem_of_In, in_rev, list_elem_of_In in Hc. auto.
        -- destruct (IH [] Hw Hc) as [H|H]; [by apply not_elem_of_nil in H|].
           right. apply elem_of_cons. auto.
    + intros Hw Hc. destruct (IH (a :: cur) Hw Hc) as [[->|H]%elem_of_cons|H].
      * right. apply list_elem_of_here.
      * auto.
      * right. apply elem_of_cons. auto.
Qed.

Lemma join_chars (sep : str) (parts : list str) (c : cp) :
  c ∈ join sep parts -> c ∈ sep \/ exists w, w ∈ parts /\ c ∈ w.
Proof.
  induction parts as [|p parts IH]; cbn [join].
  - intros Hc. by apply not_elem_of_nil in Hc.
  - destruct parts as [|p' parts].
    + intros Hc. right. exists p. split; [apply list_elem_of_here|exact Hc].
    + intros [Hc|[Hc|Hc]%elem_of_app]%elem_of_app.
      * right. exists p. split; [apply list_elem_of_here|exact Hc].
      * auto.
      * destruct (IH Hc) as [H|(w & Hw & Hcw)]; [auto|].
        right. exists w. split; [apply elem_of_cons; auto|exact Hcw].
Qed.

Lemma translate_tr_plain (c : cp) :
  translate_tr c ∉ [0x131; 0x15F; 0x11F; 0xFC; 0xF6; 0xE7]%N.
Proof.
  unfold translate_tr.
  repeat (match goal with |- context [(?a =? ?b)%N] =>
            destruct (N.eqb_spec a b) as [->|?] end);
    rewrite !not_elem_of_cons; repeat split;
    try apply not_elem_of_nil; try discriminate; assumption.
Qed.

(** Whatever the input, [normalize_text] returns words joined by single
    spaces: every word is non-empty and free of whitespace, so the
    result has no leading, trailing or doubled whitespace; and none of
    the six letters of the translation table (dotless i, s and c with
    cedilla, g with breve, u and o with diaeresis) is left in it. *)
Theorem normalize_text_shape (U : Unicode) (s : str) :
  (exists words : list str,
      normalize_text s = join (u " ") words
      /\ Forall (fun w => w ≠ [] /\ Forall (fun c => isspace c = false) w) words)
  /\ Forall (fun c => c ∉ [0x131; 0x15F; 0x11F; 0xFC; 0xF6; 0xE7]%N)
            (normalize_text s).
Proof.
  unfold normalize_text, split_ws. split.
  - eexists. split; [reflexivity|]. apply split_ws_aux_words. constructor.
  - apply Forall_forall. intros c [Hc|(w & Hw & Hc)]%join_chars.
    + apply list_elem_of_singleton in Hc. subst c.
      rewrite !not_elem_of_cons. repeat split; try discriminate. apply not_elem_of_nil.
    + destruct (split_ws_aux_chars _ _ _ _ Hw Hc) as [H|H];
        [by apply not_elem_of_nil in H|].
      apply list_elem_of_In, in_map_iff in H as (c0 & <- & _).
      apply translate_tr_plain.
Qed.

(** ** Numerals written into a frequency *)

Lemma decimal_fold_uint_acc (d : Decimal.uint) (acc : positive) :
  foldl (fun acc c => n ← acc; d ← latin_decimal c; Some (10 * n + d)%N)
        (Some (Npos acc)) (uint_str d)
  = Some (Npos (Pos.of_uint_acc d acc)).
Proof.
  revert acc. induction d; intros acc; cbn [uint_str foldl Pos.of_uint_acc];
    try reflexivity; rewrite <- IHd; f_equal; cbn; f_equal; lia.
Qed.

Lemma decimal_value_uint_str (d : Decimal.uint) :
  decimal_value (H := latin) (uint_str d) = Some (N.of_uint d).
Proof.
  unfold decimal_value. cbn [decimal latin].
  induction d; cbn [uint_str foldl]; try reflexivity;
    try (exact IHd); apply decimal_fold_uint_acc.
Qed.

(** Reading back the numeral of a number gives the number. *)
Lemma decimal_value_N_str (n : N) : decimal_value (H := latin) (N_str n) = Some n.
Proof. unfold N_str. rewrite decimal_value_uint_str, DecimalN.Unsigned.of_to. reflexivity. Qed.

Lemma uint_str_digits (d : Decimal.uint) :
  Forall (fun c => between 0x30 0x39 c = true) (uint_str d).
Proof. induction d; cbn [uint_str]; constructor; auto. Qed.

Lemma N_str_nonempty (n : N) : N_str n ≠ [].
Proof.
  unfold N_str. destruct n as [|p]; [discriminate|].
  intros Hnil. pose proof (decimal_value_N_str (Npos p)) as Hv.
  unfold N_str in Hv. rewrite Hnil in Hv. discriminate.
Qed.

Lemma filter_isdigit_digits (s : str) :
  Forall (fun c => between 0x30 0x39 c = true) s ->
  List.filter latin_isdigit s = s.
Proof.
  induction 1 as [|c s Hc _ IH]; cbn [List.filter]; [reflexivity|].
  unfold latin_isdigit at 1. rewrite Hc. cbn [orb]. rewrite IH. reflexivity.
Qed.

Lemma forallb_isdigit_digits (s : str) :
  Forall (fun c => between 0x30 0x39 c = true) s ->
  forallb latin_isdigit s = true.
Proof.
  induction 1 as [|c s Hc _ IH]; cbn [forallb]; [reflexivity|].
  unfold latin_isdigit at 1. rewrite Hc, IH. reflexivity.
Qed.

Lemma lstrip_plain (s : str) :
  match s with c :: _ => isspace c = false | [] => True end -> lstrip s = s.
Proof. destruct s as [|c s]; [reflexivity|]. cbn [lstrip]. intros ->. reflexivity. Qed.

Lemma normalized_plain (s : str) :
  Forall (fun c => plain c = true) s -> normalized (U := latin) s = s.
Proof.
  intros Hs. unfold normalized.
  assert (Hsp : Forall (fun c => isspace c = false) s).
  { eapply Forall_impl; [exact Hs|]. intros c [H1 _]%andb_prop.
    apply negb_true_iff, H1. }
  assert (Hstrip : strip s = s).
  { unfold strip, rstrip. rewrite (lstrip_plain s).
    - rewrite lstrip_plain; [apply rev_involutive|].
      destruct (rev s) as [|c t] eqn:Hr; [exact I|].
      assert (Hc : c ∈ s) by (apply list_elem_of_In, in_rev; rewrite Hr; left; reflexivity).
      exact (proj1 (Forall_forall _ _) Hsp c Hc).
    - destruct Hsp; [exact I|assumption]. }
  rewrite Hstrip. cbn [str_lower latin].
  assert (Hlow : flat_map latin_lower_cp s = s).
  { clear Hstrip Hsp. induction Hs as [|c s Hc _ IH]; [reflexivity|].
    cbn [flat_map]. rewrite IH.
    apply andb_prop in Hc as [_ Hc]. apply bool_decide_eq_true in Hc.
    rewrite Hc. reflexivity. }
  rewrite Hlow. unfold remove_spaces.
  clear Hstrip Hlow Hs. induction Hsp as [|c s Hc _ IH]; [reflexivity|].
  cbn [List.filter].
  destruct (N.eqb_spec c 0x20) as [->|_]; [discriminate|].
  cbn [negb]. rewrite IH. reflexivity.
Qed.

Lemma digits_plain (s : str) :
  Forall (fun c => between 0x30 0x39 c = true) s -> Forall (fun c => plain c = true) s.
Proof.
  intros Hs. eapply Forall_impl; [exact Hs|]. intros c Hc. unfold between in Hc.
  apply andb_prop in Hc as [H1%N.leb_le H2%N.leb_le].
  assert (Hcases : c ∈ [48; 49; 50; 51; 52; 53; 54; 55; 56; 57]%N).
  { rewrite !elem_of_cons. lia. }
  rewrite !elem_of_cons in Hcases.
  destruct Hcases as [->|[->|[->|[->|[->|[->|[->|[->|[->|[->|H]]]]]]]]]];
    try reflexivity. by apply not_elem_of_nil in H.
Qed.

(** The parser reads back every numeral: for every number [n],
    "günde" followed by the decimal numeral of [n] gives [n] doses per
    day, and "q", the numeral of a positive [n] that converts to a
    finite float, "h" gives 24.0 / n. *)
Theorem parse_reads_back_numerals (L : N) (n : N) :
  parse_frequency_to_doses_per_day (U := latin) L (u "günde" ++ N_str n)
  = Ok (Some (Z2F (Z.of_N n)))
  /\ (n ≠ 0%N ->
      is_infinite (Z2F (Z.of_N n)) = false ->
      over_digit_limit L (length (N_str n)) = false ->
      parse_frequency_to_doses_per_day (U := latin) L (u "q" ++ N_str n ++ u "h")
      = Ok (Some (fdiv (Z2F 24) (Z2F (Z.of_N n))))).
Proof.
  pose proof (uint_str_digits (N.to_uint n)) as Hdig. fold (N_str n) in Hdig.
  split.
  - unfold parse_frequency_to_doses_per_day.
    change (remove_spaces (str_lower (strip (u "günde" ++ N_str n))))
      with (normalized (U := latin) (u "günde" ++ N_str n)).
    rewrite normalized_plain
      by (apply Forall_app; split; [repeat constructor|apply digits_plain, Hdig]).
    rewrite parse_normalized_gunde. cbn [isdigit latin].
    rewrite List.filter_app, (filter_isdigit_digits _ Hdig).
    change (List.filter latin_isdigit (u "günde")) with (@nil N). cbn [app].
    rewrite (py_float_decimal (N_str n) n (N_str_nonempty n) (decimal_value_N_str n)).
    destruct (N_str n) eqn:Hn; [by apply N_str_nonempty in Hn|reflexivity].
  - intros Hn0 Hfin Hlim. unfold parse_frequency_to_doses_per_day.
    change (remove_spaces (str_lower (strip (u "q" ++ N_str n ++ u "h"))))
      with (normalized (U := latin) (u "q" ++ N_str n ++ u "h")).
    rewrite normalized_plain
      by (apply Forall_app; split; [repeat constructor|];
          apply Forall_app; split; [apply digits_plain, Hdig|repeat constructor]).
    destruct (decide (N_str n = u "24")) as [H24|H24].
    + assert (n = 24%N) as ->.
      { pose proof (decimal_value_N_str n) as Hv. rewrite H24 in Hv.
        vm_compute in Hv. congruence. }
      vm_compute. reflexivity.
    + rewrite parse_normalized_qh
        by (intros Heq; apply H24; injection Heq as Heq;
            apply (app_inv_tail [104%N]); exact Heq).
      assert (Hsd : str_isdigit (H := latin) (N_str n) = true).
      { unfold str_isdigit. pose proof (N_str_nonempty n) as Hne.
        destruct (N_str n); [done|]. apply forallb_isdigit_digits, Hdig. }
      rewrite Hsd.
      rewrite (py_int_decimal L (N_str n) n (N_str_nonempty n) (decimal_value_N_str n) Hlim).
      cbn [mbind result_bind].
      assert (Hpos : (0 < Z.of_N n)%Z) by lia.
      rewrite (proj2 (Z.ltb_lt _ _) Hpos). cbn [as_float]. rewrite Hfin.
      cbn [mbind result_bind]. unfold float_truediv.
      rewrite (Z2F_positive_nonzero _ Hpos). reflexivity.
Qed.

Lemma parse_reads_back_numerals_witness :
  parse_frequency_to_doses_per_day (U := latin) 4300 (u "q" ++ N_str 18 ++ u "h")
  = Ok (Some (fdiv (Z2F 24) (Z2F (Z.of_N 18)))).
Proof.
  apply (proj2 (parse_reads_back_numerals 4300 18)); [discriminate|reflexivity|reflexivity].
Defined.

(** ** Which integers convert to a float *)

Section IntToFloat.
#[local] Open Scope Z_scope.

Lemma shr_fexp_snd (m e : Z) (l : location) :
  snd (shr_fexp prec emax m e l)
  = e + Z.max 0 (Z.max (Zdigits2 m + e - 53) (-1074) - e).
Proof.
  unfold shr_fexp, shr. rewrite fexp_eq.
  destruct (Z.max (Zdigits2 m + e - 53) (-1074) - e) eqn:Hn; cbn [snd]; lia.
Qed.

Lemma shr_fexp_fst_m (p : positive) (e : Z) (l : location) :
  shr_m (fst (shr_fexp prec emax (Zpos p) e l))
  = Zpos p / 2 ^ Z.max 0 (Z.max (Zpos (digits2_pos p) + e - 53) (-1074) - e).
Proof.
  unfold shr_fexp, shr. cbn [Zdigits2]. rewrite fexp_eq.
  assert (Hm : shr_m (shr_record_of_loc (Zpos p) l) = Zpos p)
    by (destruct l as [|[]]; reflexivity).
  destruct (Z.max (Zpos (digits2_pos p) + e - 53) (-1074) - e) as [|n|n] eqn:Hn;
    cbn [fst].
  - rewrite Hm, Z.max_id. cbn. rewrite Z.div_1_r. reflexivity.
  - rewrite iter_pos_shr_1_m by (rewrite Hm; lia). rewrite Hm.
    rewrite Z.max_r by lia. reflexivity.
  - rewrite Hm, Z.max_l by lia. cbn. rewrite Z.div_1_r. reflexivity.
Qed.

Lemma round_nearest_even_le (m : Z) (l : location) :
  round_nearest_even m l <= m + 1.
Proof. destruct l as [|[]]; cbn [round_nearest_even]; try destruct (Z.even m); lia. Qed.

Lemma digits2_pos_le (p : positive) (k : Z) :
  0 <= k -> Zpos p < 2 ^ k -> Zpos (digits2_pos p) <= k.
Proof.
  intros Hk Hp. pose proof (digits2_pos_bounds p) as [Hlo _].
  assert (H : 2 ^ (Zpos (digits2_pos p) - 1) < 2 ^ k) by lia.
  apply Z.pow_lt_mono_r_iff in H; lia.
Qed.

Lemma digits2_pos_gt (p : positive) (k : Z) :
  0 <= k -> 2 ^ k <= Zpos p -> k < Zpos (digits2_pos p).
Proof.
  intros Hk Hp. pose proof (digits2_pos_bounds p) as [_ Hhi].
  assert (H : 2 ^ k < 2 ^ Zpos (digits2_pos p)) by lia.
  apply Z.pow_lt_mono_r_iff in H; lia.
Qed.

(** The exponent after rounding a mantissa of [d > 53] digits at
    exponent 0 is [d - 53] or one more. *)
Lemma binary_round_aux_long (s : bool) (p : positive) :
  53 < Zpos (digits2_pos p) ->
  exists (m'' : positive) (e'' : Z),
    Zpos (digits2_pos p) - 53 <= e'' <= Zpos (digits2_pos p) - 52
    /\ binary_round_aux prec emax s (Zpos p) 0 loc_Exact
       = if e'' <=? emax - prec then S754_finite s m'' e'' else S754_infinity s.
Proof.
  intros Hd. set (d := Zpos (digits2_pos p)) in *.
  pose proof (digits2_pos_bounds p) as [Hlo Hhi]. fold d in Hlo, Hhi.
  unfold binary_round_aux.
  pose proof (shr_fexp_snd (Zpos p) 0 loc_Exact) as He'.
  pose proof (shr_fexp_fst_m p 0 loc_Exact) as Hm'.
  cbn [Zdigits2] in He'. fold d in He', Hm'.
  replace (Z.max 0 (Z.max (d + 0 - 53) (-1074) - 0)) with (d - 53) in He', Hm' by lia.
  destruct (shr_fexp prec emax (Zpos p) 0 loc_Exact) as [mrs' e'].
  cbn [fst snd] in He', Hm'. subst e'.
  assert (Hpow : 2 ^ d = 2 ^ (d - 53) * 2 ^ 53)
    by (rewrite <- Z.pow_add_r by lia; f_equal; lia).
  assert (Hpow' : 2 ^ (d - 1) = 2 ^ (d - 53) * 2 ^ 52)
    by (rewrite <- Z.pow_add_r by lia; f_equal; lia).
  assert (Hp0 : 0 < 2 ^ (d - 53)) by (apply Z.pow_pos_nonneg; lia).
  assert (Hm'lo : 2 ^ 52 <= shr_m mrs')
    by (rewrite Hm'; apply Z.div_le_lower_bound; lia).
  assert (Hm'hi : shr_m mrs' < 2 ^ 53)
    by (rewrite Hm'; apply Z.div_lt_upper_bound; lia).
  pose proof (round_nearest_even_ge (shr_m mrs') (loc_of_shr_record mrs')) as Hr1.
  pose proof (round_nearest_even_le (shr_m mrs') (loc_of_shr_record mrs')) as Hr2.
  destruct (round_nearest_even (shr_m mrs') (loc_of_shr_record mrs')) as [|m1|m1];
    try lia.
  assert (Hd1lo : 52 < Zpos (digits2_pos m1)) by (apply digits2_pos_gt; lia).
  assert (Hd1hi : Zpos (digits2_pos m1) <= 54) by (apply digits2_pos_le; lia).
  pose proof (shr_fexp_snd (Zpos m1) (0 + (d - 53)) loc_Exact) as He''.
  cbn [Zdigits2] in He''.
  assert (Hpos1 : -1074 < Zpos (digits2_pos m1) + (0 + (d - 53))) by lia.
  destruct (shr_fexp_positive m1 (0 + (d - 53)) loc_Exact Hpos1) as [Hm'' _].
  destruct (shr_fexp prec emax (Zpos m1) (0 + (d - 53)) loc_Exact) as [mrs'' e''].
  cbn [fst snd] in He'', Hm''.
  destruct (shr_m mrs'') as [|m''|m'']; try lia.
  exists m'', e''. split; [lia|reflexivity].
Qed.

Lemma binary_round_aux_canonical (s : bool) (m : positive) (e : Z) :
  Zpos (digits2_pos m) = 53 -> -1074 <= e <= 971 ->
  binary_round_aux prec emax s (Zpos m) e loc_Exact = S754_finite s m e.
Proof.
  intros Hd He.
  assert (Hsf : shr_fexp prec emax (Zpos m) e loc_Exact
                = ({| shr_m := Zpos m; shr_r := false; shr_s := false |}, e)).
  { unfold shr_fexp, shr. cbn [Zdigits2 shr_record_of_loc]. rewrite fexp_eq, Hd.
    replace (Z.max (53 + e - 53) (-1074) - e) with 0 by lia. reflexivity. }
  unfold binary_round_aux. rewrite Hsf.
  cbn [shr_m loc_of_shr_record round_nearest_even]. rewrite Hsf. cbn [shr_m].
  rewrite (proj2 (Z.leb_le e (emax - prec))) by (unfold emax, prec; lia).
  reflexivity.
Qed.

Lemma binary_round_finite (s : bool) (p : positive) :
  Zpos (digits2_pos p) <= 1023 ->
  is_infinite (binary_round prec emax s p 0) = false.
Proof.
  intros Hd. unfold binary_round. rewrite fexp_eq.
  destruct (Z_le_gt_dec (Zpos (digits2_pos p)) 53) as [Hle|Hgt].
  - replace (Z.max (Zpos (digits2_pos p) + 0 - 53) (-1074))
      with (Zpos (digits2_pos p) - 53) by lia.
    pose proof (shl_align_digits p 0 (Zpos (digits2_pos p) - 53)) as Hs.
    pose proof (shl_align_snd_le p 0 (Zpos (digits2_pos p) - 53) ltac:(lia)) as He.
    destruct (shl_align p 0 (Zpos (digits2_pos p) - 53)) as [mz ez].
    cbn [fst snd] in Hs, He. subst ez.
    rewrite binary_round_aux_canonical by lia. reflexivity.
  - replace (Z.max (Zpos (digits2_pos p) + 0 - 53) (-1074))
      with (Zpos (digits2_pos p) - 53) by lia.
    unfold shl_align.
    destruct (Zpos (digits2_pos p) - 53 - 0) eqn:Hn; try lia.
    destruct (binary_round_aux_long s p ltac:(lia)) as (m'' & e'' & He & ->).
    rewrite (proj2 (Z.leb_le e'' (emax - prec))) by (unfold emax, prec; lia).
    reflexivity.
Qed.

Lemma binary_round_infinite (s : bool) (p : positive) :
  1024 < Zpos (digits2_pos p) ->
  binary_round prec emax s p 0 = S754_infinity s.
Proof.
  intros Hd. unfold binary_round. rewrite fexp_eq.
  replace (Z.max (Zpos (digits2_pos p) + 0 - 53) (-1074))
    with (Zpos (digits2_pos p) - 53) by lia.
  unfold shl_align.
  destruct (Zpos (digits2_pos p) - 53 - 0) eqn:Hn; try lia.
  destruct (binary_round_aux_long s p ltac:(lia)) as (m'' & e'' & He & ->).
  rewrite (proj2 (Z.leb_gt e'' (emax - prec))) by (unfold emax, prec; lia).
  reflexivity.
Qed.

(** An integer below [2^1023] in magnitude converts to a finite float;
    one of [2^1024] or more does not. *)
Lemma Z2F_finite (z : Z) : Z.abs z < 2 ^ 1023 -> is_infinite (Z2F z) = false.
Proof.
  intros Hz. destruct z as [|p|p]; [reflexivity| |];
    unfold Z2F, binary_normalize; apply binary_round_finite;
    apply digits2_pos_le; lia.
Qed.

Lemma Z2F_infinite (z : Z) : 2 ^ 1024 <= Z.abs z -> is_infinite (Z2F z) = true.
Proof.
  intros Hz. destruct z as [|p|p]; [cbn in Hz; lia| |];
    unfold Z2F, binary_normalize; rewrite binary_round_infinite;
    try reflexivity; apply digits2_pos_gt; lia.
Qed.

End IntToFloat.

Section Overflow.
Context {U : Unicode}.
Variable L : N.

(** When the parser answers, the calculator raises only for an int
    rate too large for a float: it returns for every float rate and
    every int rate below 2^1023 in magnitude, for every weight, and it
    raises OverflowError for an int rate of 2^1024 or more. *)
Theorem calc_rule_raises_only_on_huge_int_rate (r : DoseRule) (pt : Patient)
    (dpd : option float) :
  doses_per_day L r = Ok dpd ->
  ((forall z, mg_per_kg_per_day r = Some (PInt z) -> (Z.abs z < 2 ^ 1023)%Z) ->
   exists xs, calc_rule L r pt = Ok xs)
  /\ (forall z, mg_per_kg_per_day r = Some (PInt z) -> (2 ^ 1024 <= Z.abs z)%Z ->
      calc_rule L r pt = Raise OverflowError).
Proof.
  intros Hd. rewrite (calc_rule_parsed L r pt dpd Hd). split.
  - intros Hz. destruct (mg_per_kg_per_day r) as [rate|]; [|eauto].
    destruct (num_truthy rate); [|eauto].
    assert (Ha : exists a, as_float rate = Ok a).
    { destruct rate as [z|x]; cbn [as_float]; [|eauto].
      rewrite (Z2F_finite z (Hz z eq_refl)). eauto. }
    destruct Ha as [a Ha]. unfold mg_day_of. rewrite Ha.
    cbn [mbind result_bind mret result_ret].
    unfold mg_dose_of, float_truediv, float_truthy.
    destruct dpd as [d|]; [|eauto]. destruct (is_zero d); cbn; eauto.
  - intros z Hr Hz. rewrite Hr. cbn [num_truthy].
    assert (Hnz : (z =? 0)%Z = false).
    { apply Z.eqb_neq. intros ->. cbn in Hz. lia. }
    rewrite Hnz. cbn [negb]. unfold mg_day_of. cbn [as_float].
    rewrite (Z2F_infinite z Hz). reflexivity.
Qed.

(** For "q<N>h" other than "q24h", N a non-empty string of digit
    characters: when N has more digits than the interpreter's digit
    limit allows, the parser raises ValueError; when N is within the
    limit and written in decimal digits, the parser raises
    OverflowError if N is 2^1024 or more (any N of 310 digits or more)
    and answers 24.0 / N if N is positive and below 2^1023 (any N of at
    most 308 digits). *)
Theorem parse_hours_overflow (freq ds : str) :
  normalized freq = u "q" ++ ds ++ u "h" ->
  normalized freq ≠ u "q24h" ->
  str_isdigit ds = true ->
  (over_digit_limit L (length ds) = true ->
   parse_frequency_to_doses_per_day L freq = Raise ValueError)
  /\ (forall n : N,
      decimal_value ds = Some n ->
      over_digit_limit L (length ds) = false ->
      ((2 ^ 1024 <= n)%N ->
       parse_frequency_to_doses_per_day L freq = Raise OverflowError)
      /\ ((0 < n < 2 ^ 1023)%N ->
          parse_frequency_to_doses_per_day L freq
          = Ok (Some (fdiv (Z2F 24) (Z2F (Z.of_N n)))))).
Proof.
  intros Hf Hne Hdig.
  change (parse_frequency_to_doses_per_day L freq)
    with (parse_normalized L (normalized freq)).
  rewrite Hf in Hne |- *.
  rewrite (parse_normalized_qh L ds Hne), Hdig.
  split.
  { intros Hlim. unfold py_int. rewrite Hlim.
    destruct ds; [reflexivity|]. destruct (decimal_value _); reflexivity. }
  intros n Hn Hlim.
  rewrite (py_int_decimal L ds n (str_isdigit_nonempty ds Hdig) Hn Hlim).
  cbn [mbind result_bind].
  assert (H1024 : Z.of_N (2 ^ 1024) = (2 ^ 1024)%Z) by (rewrite N2Z.inj_pow; reflexivity).
  assert (H1023 : Z.of_N (2 ^ 1023) = (2 ^ 1023)%Z) by (rewrite N2Z.inj_pow; reflexivity).
  split.
  - intros Hbig.
    assert (Hz : (2 ^ 1024 <= Z.abs (Z.of_N n))%Z) by lia.
    assert (Hpos : (0 < Z.of_N n)%Z) by lia.
    rewrite (proj2 (Z.ltb_lt _ _) Hpos). cbn [as_float].
    rewrite (Z2F_infinite _ Hz). reflexivity.
  - intros [Hpos Hsmall].
    assert (Hz : (Z.abs (Z.of_N n) < 2 ^ 1023)%Z) by lia.
    assert (Hpos' : (0 < Z.of_N n)%Z) by lia.
    rewrite (proj2 (Z.ltb_lt _ _) Hpos'). cbn [as_float].
    rewrite (Z2F_finite _ Hz). cbn [mbind result_bind]. unfold float_truediv.
    rewrite (Z2F_positive_nonzero _ Hpos'). reflexivity.
Qed.

End Overflow.

Lemma calc_rule_raises_only_on_huge_int_rate_witness :
  calc_rule (U := latin) 4300
    (rule_of (u "q6h") (Some (PInt (2 ^ 1024))) None None) (patient_of (Z2F 10))
  = Raise OverflowError.
Proof.
  apply (proj2 (calc_rule_raises_only_on_huge_int_rate (U := latin) 4300
                  (rule_of (u "q6h") (Some (PInt (2 ^ 1024))) None None)
                  (patient_of (Z2F 10)) (Some (Z2F 4)) eq_refl)
               (2 ^ 1024)%Z eq_refl).
  vm_compute. discriminate.
Defined.

Lemma parse_hours_overflow_witness :
  parse_frequency_to_doses_per_day (U := latin) 4300 (u "q18h")
  = Ok (Some (fdiv (Z2F 24) (Z2F (Z.of_N 18)))).
Proof.
  apply (proj2 (proj2 (parse_hours_overflow (U := latin) 4300 (u "q18h") (u "18")
                         eq_refl ltac:(discriminate) eq_refl)
                  18%N eq_refl eq_refl)).
  split; vm_compute; reflexivity.
Defined.

(** ** The report is produced exactly when every rule is *)

Lemma for_each_Ok {A B} (f : A -> result B) (l : list A) :
  (forall x, x ∈ l -> exists y, f x = Ok y) -> exists ys, for_each f l = Ok ys.
Proof.
  induction l as [|x l IH]; intros Hl; [eexists; reflexivity|].
  destruct (Hl x ltac:(apply list_elem_of_here)) as [y Hy].
  destruct IH as [ys Hys]; [intros x' Hx'; apply Hl, elem_of_cons; auto|].
  exists (y :: ys). cbn [for_each]. rewrite Hy, Hys. reflexivity.
Qed.

Lemma for_each_Raise {A B} (f : A -> result B) (l : list A) (x : A) :
  x ∈ l -> (exists e, f x = Raise e) -> exists e', for_each f l = Raise e'.
Proof.
  induction l as [|a l IH]; intros Hx [e Hf]; [by apply not_elem_of_nil in Hx|].
  cbn [for_each]. apply elem_of_cons in Hx as [->|Hx].
  - rewrite Hf. eexists. reflexivity.
  - destruct (f a); [|eexists; reflexivity]. cbn [mbind result_bind].
    destruct (IH Hx (ex_intro _ e Hf)) as [e' ->]. eexists. reflexivity.
Qed.

Section ReportReturns.
Context {U : Unicode}.
Variable L : N.
Variable float_repr : float -> str.

(** For a drug that the lookup finds, [compute_text] returns a report
    when the lines of every rule of the drug can be produced, and
    raises when a rule of the drug raises: no rule is skipped, and one
    failing rule withholds the whole report. *)
Theorem compute_text_returns_iff_rules_do (registry : gmap str Drug) (w : float)
    (q : str) (d : Drug) :
  lookup_drug registry q = Some d ->
  ((forall r, r ∈ rules d ->
              exists ls, rule_lines L float_repr (patient_of w) r = Ok ls) ->
   exists text, compute_text L float_repr registry w q = Ok text)
  /\ (forall r e, r ∈ rules d ->
                  rule_lines L float_repr (patient_of w) r = Raise e ->
                  exists e', compute_text L float_repr registry w q = Raise e').
Proof.
  intros Hq. unfold compute_text. rewrite Hq.
  change {| weight_kg := w; height_cm := None |} with (patient_of w).
  rewrite rules_by_indication_grouped. unfold grouped_by_indication.
  split.
  - intros Hall.
    destruct (for_each_Ok (indication_lines L float_repr (patient_of w))
                ((fun ind => (ind, rules_of_indication ind (rules d)))
                   <$> first_seen (indication <$> rules d))) as [body Hb].
    { intros g (i & -> & _)%list_elem_of_fmap. unfold indication_lines. cbn [fst snd].
      destruct (for_each_Ok (rule_lines L float_repr (patient_of w))
                  (rules_of_indication i (rules d))) as [ls Hls].
      { intros r Hr%list_elem_of_filter. apply Hall, Hr. }
      rewrite Hls. eexists. reflexivity. }
    rewrite Hb. eexists. reflexivity.
  - intros r e Hr He.
    destruct (for_each_Raise (indication_lines L float_repr (patient_of w))
                ((fun ind => (ind, rules_of_indication ind (rules d)))
                   <$> first_seen (indication <$> rules d))
                (indication r, rules_of_indication (indication r) (rules d)))
      as [e' He'].
    + apply list_elem_of_fmap. exists (indication r). split; [reflexivity|].
      apply elem_of_first_seen, list_elem_of_fmap. eauto.
    + unfold indication_lines. cbn [fst snd].
      destruct (for_each_Raise (rule_lines L float_repr (patient_of w))
                  (rules_of_indication (indication r) (rules d)) r) as [e1 He1].
      * apply list_elem_of_filter. auto.
      * eauto.
      * rewrite He1. eexists. reflexivity.
    + rewrite He'. eexists. reflexivity.
Qed.

End ReportReturns.

Lemma compute_text_returns_iff_rules_do_witness :
  exists text,
    compute_text (U := latin) 4300 (fun _ => u "10.0") (REGISTRY (U := latin))
      (Z2F 10) (u "ampisilin sulbaktam") = Ok text.
Proof.
  apply (proj1 (compute_text_returns_iff_rules_do (U := latin) 4300 (fun _ => u "10.0")
                  (REGISTRY (U := latin)) (Z2F 10) (u "ampisilin sulbaktam") amp
                  eq_refl)).
  intros r Hr. vm_compute in Hr.
  apply elem_of_cons in Hr as [->|Hr]; [eexists; vm_compute; reflexivity|].
  apply elem_of_cons in Hr as [->|Hr]; [eexists; vm_compute; reflexivity|].
  by apply not_elem_of_nil in Hr.
Defined.

(** ** Whole-number amounts are exact *)

Section Exact.
#[local] Open Scope Z_scope.

Lemma pos_iter_xO_value (m k : positive) :
  Zpos (Pos.iter xO m k) = Zpos m * 2 ^ Zpos k.
Proof.
  induction k as [|k IH] using Pos.peano_ind.
  - cbn [Pos.iter]. rewrite Pos2Z.inj_xO. change (2 ^ 1) with 2. lia.
  - rewrite Pos.iter_succ, Pos2Z.inj_xO, IH, Pos2Z.inj_succ, Z.pow_succ_r by lia. lia.
Qed.

Lemma digits2_pos_unique (m : positive) (k : Z) :
  2 ^ (k - 1) <= Zpos m < 2 ^ k -> Zpos (digits2_pos m) = k.
Proof.
  intros [Hlo Hhi].
  assert (Hk : 0 < k).
  { destruct (Z_lt_le_dec 0 k); [assumption|]. exfalso.
    assert (H1 : 2 ^ k <= 1).
    { destruct (Z.eq_dec k 0) as [->|Hne]; [cbn; lia|].
      rewrite Z.pow_neg_r by lia. lia. }
    lia. }
  pose proof (digits2_pos_le m k ltac:(lia) Hhi).
  pose proof (digits2_pos_gt m (k - 1) ltac:(lia) Hlo). lia.
Qed.

(** The float of a positive integer of at most 53 bits holds it exactly. *)
Lemma Z2F_canonical (p : positive) :
  Zpos (digits2_pos p) <= 53 ->
  exists mz : positive,
    Z2F (Zpos p) = S754_finite false mz (Zpos (digits2_pos p) - 53)
    /\ Zpos mz = Zpos p * 2 ^ (53 - Zpos (digits2_pos p))
    /\ Zpos (digits2_pos mz) = 53.
Proof.
  intros Hd. unfold Z2F, binary_normalize, binary_round. rewrite fexp_eq.
  replace (Z.max (Zpos (digits2_pos p) + 0 - 53) (-1074))
    with (Zpos (digits2_pos p) - 53) by lia.
  pose proof (shl_align_digits p 0 (Zpos (digits2_pos p) - 53)) as Hs.
  pose proof (shl_align_snd_le p 0 (Zpos (digits2_pos p) - 53) ltac:(lia)) as He.
  assert (Hv : Zpos (fst (shl_align p 0 (Zpos (digits2_pos p) - 53)))
               = Zpos p * 2 ^ (53 - Zpos (digits2_pos p))).
  { unfold shl_align.
    destruct (Zpos (digits2_pos p) - 53 - 0) as [|k|k] eqn:Hk; cbn [fst]; try lia.
    - replace (53 - Zpos (digits2_pos p)) with 0 by lia. lia.
    - rewrite pos_iter_xO_value. f_equal. f_equal. lia. }
  destruct (shl_align p 0 (Zpos (digits2_pos p) - 53)) as [mz ez].
  cbn [fst snd] in Hs, He, Hv. subst ez.
  exists mz. rewrite binary_round_aux_canonical by lia.
  repeat split; [exact Hv|lia].
Qed.

Lemma shr_1_double (k : Z) :
  0 <= k ->
  shr_1 {| shr_m := 2 * k; shr_r := false; shr_s := false |}
  = {| shr_m := k; shr_r := false; shr_s := false |}.
Proof. destruct k as [|p|p]; [reflexivity|reflexivity|lia]. Qed.

Lemma iter_pos_shr_1_exact (n : positive) (k : Z) :
  0 <= k ->
  SpecFloat.iter_pos shr_1 n {| shr_m := k * 2 ^ Zpos n; shr_r := false; shr_s := false |}
  = {| shr_m := k; shr_r := false; shr_s := false |}.
Proof.
  revert k. induction n as [n IH|n IH|]; intros k Hk; cbn [SpecFloat.iter_pos].
  - assert (Hp : 0 < 2 ^ Zpos n) by (apply Z.pow_pos_nonneg; lia).
    replace (k * 2 ^ Zpos n~1) with (2 * (k * 2 ^ Zpos n * 2 ^ Zpos n)).
    + rewrite shr_1_double by nia. rewrite IH by nia. apply IH, Hk.
    + rewrite Pos2Z.inj_xI.
      replace (2 * Zpos n + 1) with (1 + Zpos n + Zpos n) by lia.
      rewrite !Z.pow_add_r by lia. change (2 ^ 1) with 2. ring.
  - assert (Hp : 0 < 2 ^ Zpos n) by (apply Z.pow_pos_nonneg; lia).
    replace (k * 2 ^ Zpos n~0) with (k * 2 ^ Zpos n * 2 ^ Zpos n).
    + rewrite IH by nia. apply IH, Hk.
    + rewrite <- Z.mul_assoc, <- Z.pow_add_r by lia. f_equal. f_equal. lia.
  - change (2 ^ 1) with 2. rewrite Z.mul_comm. apply shr_1_double, Hk.
Qed.

Lemma shr_fexp_canonical (m : positive) (e : Z) :
  Zpos (digits2_pos m) = 53 -> -1074 <= e ->
  shr_fexp prec emax (Zpos m) e loc_Exact
  = ({| shr_m := Zpos m; shr_r := false; shr_s := false |}, e).
Proof.
  intros Hd He. unfold shr_fexp, shr. cbn [Zdigits2 shr_record_of_loc].
  rewrite fexp_eq, Hd.
  replace (Z.max (53 + e - 53) (-1074) - e) with 0 by lia. reflexivity.
Qed.

Lemma binary_round_aux_exact_shift (s : bool) (M mc : positive) (e n : Z) :
  Zpos M = Zpos mc * 2 ^ n -> 0 < n ->
  Zpos (digits2_pos mc) = 53 -> -1074 <= e + n <= 971 ->
  binary_round_aux prec emax s (Zpos M) e loc_Exact = S754_finite s mc (e + n).
Proof.
  intros HM Hn Hd He.
  pose proof (digits2_pos_bounds mc) as [Hlo Hhi]. rewrite Hd in Hlo, Hhi.
  assert (Hp : 0 < 2 ^ n) by (apply Z.pow_pos_nonneg; lia).
  assert (HdM : Zpos (digits2_pos M) = 53 + n).
  { apply digits2_pos_unique. rewrite HM.
    replace (53 + n - 1) with (52 + n) by lia.
    rewrite !Z.pow_add_r by lia. change (53 - 1) with 52 in Hlo. nia. }
  assert (Hsf : shr_fexp prec emax (Zpos M) e loc_Exact
                = ({| shr_m := Zpos mc; shr_r := false; shr_s := false |}, e + n)).
  { unfold shr_fexp, shr. cbn [Zdigits2 shr_record_of_loc]. rewrite fexp_eq, HdM.
    replace (Z.max (53 + n + e - 53) (-1074) - e) with n by lia.
    destruct n as [|pn|pn]; try lia.
    rewrite HM, iter_pos_shr_1_exact by lia. reflexivity. }
  unfold binary_round_aux. rewrite Hsf.
  cbn [shr_m loc_of_shr_record round_nearest_even].
  rewrite shr_fexp_canonical by lia. cbn [shr_m].
  rewrite (proj2 (Z.leb_le (e + n) (emax - prec))) by (unfold emax, prec; lia).
  reflexivity.
Qed.

(** The product of two positive integers is computed exactly as long as
    it has at most 53 bits. *)
Lemma fmul_Z2F_exact (a b : positive) :
  Zpos a * Zpos b < 2 ^ 53 ->
  fmul (Z2F (Zpos a)) (Z2F (Zpos b)) = Z2F (Zpos (a * b)).
Proof.
  intros Hab.
  pose proof (digits2_pos_bounds a) as [Halo Hahi].
  pose proof (digits2_pos_bounds b) as [Hblo Hbhi].
  set (da := Zpos (digits2_pos a)) in *. set (db := Zpos (digits2_pos b)) in *.
  set (dc := Zpos (digits2_pos (a * b))).
  assert (Hda1 : 1 <= da) by (subst da; lia).
  assert (Hdb1 : 1 <= db) by (subst db; lia).
  assert (Hdc53 : dc <= 53) by (apply digits2_pos_le; [lia|rewrite Pos2Z.inj_mul; lia]).
  assert (Hda53 : da <= 53) by (apply digits2_pos_le; [lia|nia]).
  assert (Hdb53 : db <= 53) by (apply digits2_pos_le; [lia|nia]).
  assert (Hdc_lo : da + db - 1 <= dc).
  { assert (H : 2 ^ (da - 1 + (db - 1)) <= Zpos (a * b)).
    { rewrite Z.pow_add_r, Pos2Z.inj_mul by lia.
      apply Z.mul_le_mono_nonneg; try lia; apply Z.pow_nonneg; lia. }
    pose proof (digits2_pos_gt (a * b) (da - 1 + (db - 1)) ltac:(lia) H).
    subst dc. lia. }
  assert (Hdc_hi : dc <= da + db).
  { apply digits2_pos_le; [lia|]. rewrite Pos2Z.inj_mul, Z.pow_add_r by lia.
    apply Z.mul_lt_mono_nonneg; lia. }
  destruct (Z2F_canonical a Hda53) as (ma & Ha & Hma & Hdma).
  destruct (Z2F_canonical b Hdb53) as (mb & Hb & Hmb & Hdmb).
  destruct (Z2F_canonical (a * b) Hdc53) as (mc & Hc & Hmc & Hdmc).
  rewrite Ha, Hb, Hc. fold da in Hma |- *. fold db in Hmb |- *. fold dc in Hmc |- *.
  unfold fmul, SFmul. cbn [xorb].
  set (n := 53 + dc - da - db).
  assert (Hn : 52 <= n <= 53) by (subst n; lia).
  assert (Hpow : 2 ^ (53 - da) * 2 ^ (53 - db) = 2 ^ (53 - dc) * 2 ^ n)
    by (rewrite <- !Z.pow_add_r by lia; f_equal; lia).
  assert (HM : Zpos (ma * mb) = Zpos mc * 2 ^ n).
  { rewrite Pos2Z.inj_mul, Hma, Hmb, Hmc, Pos2Z.inj_mul.
    transitivity (Zpos a * Zpos b * (2 ^ (53 - da) * 2 ^ (53 - db))); [ring|].
    rewrite Hpow. ring. }
  rewrite (binary_round_aux_exact_shift false (ma * mb) mc (da - 53 + (db - 53)) n HM)
    by lia.
  f_equal. lia.
Qed.

(** A whole number below [2^53] prints as its numeral. *)
Lemma format_f0_Z2F (p : positive) :
  Zpos p < 2 ^ 53 -> format_f0 (Z2F (Zpos p)) = N_str (Npos p).
Proof.
  intros Hp.
  assert (Hd : Zpos (digits2_pos p) <= 53) by (apply digits2_pos_le; lia).
  destruct (Z2F_canonical p Hd) as (mz & -> & Hmz & _).
  cbn [format_f0 sign_str app]. f_equal.
  unfold round_half_even. rewrite Hmz.
  set (k := 53 - Zpos (digits2_pos p)) in *.
  replace (Zpos (digits2_pos p) - 53) with (- k) by lia.
  assert (Hk : 0 <= k) by lia.
  assert (Hpk : 0 < 2 ^ k) by (apply Z.pow_pos_nonneg; lia).
  destruct (0 <=? - k) eqn:Hle.
  - apply Z.leb_le in Hle. assert (k = 0) as -> by lia. cbn [Z.opp].
    rewrite Z.pow_0_r, !Z.mul_1_r. reflexivity.
  - rewrite Z.opp_involutive, Z.div_mul, Z.mod_mul by lia.
    change (2 * 0 ?= 2 ^ k) with (0 ?= 2 ^ k).
    rewrite (proj2 (Z.compare_lt_iff 0 (2 ^ k)) Hpk). reflexivity.
Qed.

End Exact.

(** For a whole-number rate and a whole-number weight whose product is
    below 2^53, the day total is computed without rounding and its line
    shows the product digit for digit, whatever the frequency parses
    to. *)
Theorem calc_rule_whole_numbers_exact (U : Unicode) (L : N) (r : DoseRule)
    (pt : Patient) (dpd : option float) (a b : positive) :
  (Zpos a * Zpos b < 2 ^ 53)%Z ->
  doses_per_day L r = Ok dpd ->
  mg_per_kg_per_day r = Some (PInt (Zpos a)) ->
  weight_kg pt = Z2F (Zpos b) ->
  mg_day_of (PInt (Zpos a)) pt = Ok (Z2F (Zpos (a * b)))
  /\ exists dose_line : str,
      calc_rule L r pt
      = Ok [dose_line; u "→ " ++ N_str (Npos (a * b)) ++ u " mg/gün"].
Proof.
  intros Hab Hd Hr Hw.
  assert (Ha : (Z.abs (Zpos a) < 2 ^ 1023)%Z) by (cbn [Z.abs]; nia).
  assert (Hday : mg_day_of (PInt (Zpos a)) pt = Ok (Z2F (Zpos (a * b)))).
  { unfold mg_day_of. cbn [as_float]. rewrite (Z2F_finite _ Ha), Hw.
    cbn [mbind result_bind mret result_ret]. rewrite fmul_Z2F_exact by exact Hab.
    reflexivity. }
  split; [exact Hday|].
  rewrite (calc_rule_parsed L r pt dpd Hd), Hr. cbn [num_truthy Z.eqb negb].
  rewrite Hday. cbn [mbind result_bind].
  rewrite format_f0_Z2F by (rewrite Pos2Z.inj_mul; exact Hab).
  unfold mg_dose_of, float_truediv, float_truthy.
  destruct dpd as [d|]; [destruct (is_zero d)|]; cbn; eauto.
Qed.

Lemma calc_rule_whole_numbers_exact_witness :
  mg_day_of (PInt 100) (patient_of (Z2F 10)) = Ok (Z2F (Zpos (100 * 10)))
  /\ exists dose_line : str,
      calc_rule (U := latin) 4300 (rule_genel 100) (patient_of (Z2F 10))
      = Ok [dose_line; u "→ " ++ N_str (Npos (100 * 10)) ++ u " mg/gün"].
Proof.
  apply (calc_rule_whole_numbers_exact latin 4300 (rule_genel 100)
           (patient_of (Z2F 10)) (Some (Z2F 4)) 100 10);
    reflexivity.
Defined.

(** ** The fallback for a frequency that is not parseable *)



